(** * Replay engine of the Hanabi game tracer ([trace_game.py])

    A shallow embedding of the replay code: the mutable objects the Python
    functions share (the players' hands, the discard pile, the played pile
    and the log file) form a store that every operation threads, and a
    Python exception is an [Err] result that leaves the store as the
    mutations before the [raise] made it. *)

From Stdlib Require Import ZArith String Ascii List Lia.
From stdpp Require Import gmap strings list fin_maps pretty.

Local Open Scope Z_scope.

(** ** Exceptions *)

(** The exceptions the replay can raise.  [InvalidGameError] is the one
    class the module declares; the others are raised by Python and torch:
    [IndexError] by an index out of range (list, tensor, [pop]), [KeyError]
    by a missing dictionary key, [ValueError] by unpacking the wrong number
    of values, and [RuntimeError] by [Tensor.item()] on a tensor that does
    not hold exactly one element. *)
Inductive exn : Type :=
  | InvalidGameError (msg : string)
  | IndexError
  | KeyError
  | ValueError
  | RuntimeError.

Inductive result (A : Type) : Type :=
  | Ok (a : A)
  | Err (e : exn).
Arguments Ok {A} a.
Arguments Err {A} e.

(** ** Cards *)

(** A row of the deck tensor: (color index, 0-based rank). *)
Definition card_tuple : Type := (Z * Z)%type.

(** The string [card_str] builds, ["<name> <rank + 1>"], kept as its two
    components: the color name and the integer whose decimal form follows
    the separating space.  A Python [str] is held as the bytes of its
    UTF-8 encoding. *)
Record card : Type := Card { color_name : string; rank1 : Z }.

#[global] Instance card_eq_dec : EqDecision card.
Proof. solve_decision. Defined.

(** [color_map[color]] and the f-string of [card_str]. *)
Definition card_str (card_tuple0 : card_tuple) (color_map : gmap Z string)
  : result card :=
  let '(color, rank) := card_tuple0 in
  match color_map !! color with
  | Some name => Ok (Card name (rank + 1))
  | None => Err KeyError
  end.

(** Python's whitespace among the one-byte (ASCII) characters: U+0009 to
    U+000D, U+001C to U+001F and the space. *)
Definition is_space (a : ascii) : bool :=
  let n := nat_of_ascii a in
  ((9 <=? n)%nat && (n <=? 13)%nat) || ((28 <=? n)%nat && (n <=? 32)%nat).

(** The number of bytes of the whitespace character the string starts
    with, 0 when it starts with none.  The whitespace of [str.split()]
    without arguments is the characters [str.isspace()] accepts: the ASCII
    ones above, and U+0085 (C2 85), U+00A0 (C2 A0), U+1680 (E1 9A 80),
    U+2000 to U+200A (E2 80 80 to E2 80 8A), U+2028, U+2029 (E2 80 A8,
    E2 80 A9), U+202F (E2 80 AF), U+205F (E2 81 9F) and U+3000
    (E3 80 80).  In a UTF-8 string these byte patterns occur only as the
    encodings of these characters. *)
Definition space_length (s : string) : nat :=
  match s with
  | EmptyString => 0
  | String a s1 =>
      if is_space a then 1
      else
        match s1 with
        | EmptyString => 0
        | String b s2 =>
            let n := nat_of_ascii a in
            let m := nat_of_ascii b in
            if (n =? 194)%nat && ((m =? 133)%nat || (m =? 160)%nat) then 2
            else
              match s2 with
              | EmptyString => 0
              | String c _ =>
                  let k := nat_of_ascii c in
                  if (n =? 225)%nat && (m =? 154)%nat && (k =? 128)%nat
                  then 3
                  else if (n =? 226)%nat && (m =? 128)%nat &&
                          (((128 <=? k)%nat && (k <=? 138)%nat) ||
                           (k =? 168)%nat || (k =? 169)%nat || (k =? 175)%nat)
                  then 3
                  else if (n =? 226)%nat && (m =? 129)%nat && (k =? 159)%nat
                  then 3
                  else if (n =? 227)%nat && (m =? 128)%nat && (k =? 128)%nat
                  then 3
                  else 0
              end
        end
  end.

(** The scan of [s.split()]: [cur] is the run of non-whitespace bytes read
    so far, [skip] the bytes still to pass of the whitespace character the
    scan is in. *)
Fixpoint str_split_from (skip : nat) (cur : string) (s : string)
  : list string :=
  match s with
  | EmptyString => match cur with EmptyString => [] | _ => [cur] end
  | String a s' =>
      match skip with
      | S skip' => str_split_from skip' cur s'
      | O =>
          match space_length s with
          | O => str_split_from 0 (cur +:+ String a EmptyString) s'
          | S skip' =>
              match cur with
              | EmptyString => str_split_from skip' EmptyString s'
              | _ => cur :: str_split_from skip' EmptyString s'
              end
          end
      end
  end.

(** [s.split()]: the maximal runs of characters that are not whitespace
    ([cur] is a run already read, empty at the start). *)
Definition str_split (cur : string) (s : string) : list string :=
  str_split_from 0 cur s.

(** [color, rank_str = card.split()] followed by [int(rank_str)]: the
    decimal part is one token and reads back as [rank1]; the unpacking
    needs the color name to contribute exactly one more token. *)
Definition card_split (c : card) : result (string * Z) :=
  match str_split EmptyString (color_name c) with
  | [color] => Ok (color, rank1 c)
  | _ => Err ValueError
  end.

(** ** Indexing *)

(** [seq[i]] for a Python list or the first dimension of a tensor: a
    negative index counts from the end, anything outside raises
    [IndexError] (the [None] here). *)
Definition py_index {A : Type} (l : list A) (i : Z) : option A :=
  let n := Z.of_nat (length l) in
  let j := if i <? 0 then i + n else i in
  if (j <? 0) || (n <=? j) then None else l !! Z.to_nat j.

(** [l.pop(i)]: the element and the list without it. *)
Definition py_pop {A : Type} (l : list A) (i : Z) : option (A * list A) :=
  let n := Z.of_nat (length l) in
  let j := if i <? 0 then i + n else i in
  if (j <? 0) || (n <=? j) then None
  else (fun x => (x, delete (Z.to_nat j) l)) <$> l !! Z.to_nat j.

(** [t[a:b]] with [0 <= a <= b]: clamped to the tensor, never an error. *)
Definition py_slice {A : Type} (l : list A) (a b : Z) : list A :=
  take (Z.to_nat (b - a)) (drop (Z.to_nat a) l).

(** [range(n)]. *)
Definition range (n : Z) : list Z := seqZ 0 n.

(** ** The log file *)

(** What the replay prints, one constructor per [print] of the source
    ([StateLines] stands for the block [print_game_state] writes). *)
Inductive line : Type :=
  | HeaderLine (game_idx : Z)
  | StepLine (action_num : Z) (acting_player_idx : nat) (action_text : string)
  | DiscardedLine (c : card)
  | PlayedLine (c : card)
  | DrewLine (c : card)
  | HintLine
  | StateLines (hands : list (list card)) (discard_pile : list card)
               (played_pile : gmap string Z)
  | FinalScoreLine (score : Z)
  | EndLine
  | ErrorLine (game_idx : Z) (msg : string).

(** ** The store and its monad *)

(** The objects [trace_game] creates and passes by reference to the
    handlers, and the file it prints to. *)
Record store : Type := Store {
  hands : list (list card);
  discard_pile : list card;
  played_pile : gmap string Z;
  file : list line
}.

Definition M (A : Type) : Type := store -> store * result A.

Definition ret {A : Type} (a : A) : M A := fun s => (s, Ok a).
Definition raise {A : Type} (e : exn) : M A := fun s => (s, Err e).
Definition bind {A B : Type} (m : M A) (k : A -> M B) : M B :=
  fun s => match m s with
           | (s', Ok a) => k a s'
           | (s', Err e) => (s', Err e)
           end.

Notation "'let!' x ':=' m 'in' k" := (bind m (fun x => k))
  (at level 10, x pattern, m at level 100, k at level 200).
Notation "m ';;' k" := (bind m (fun _ => k))
  (at level 100, k at level 200, right associativity).

(** [print(..., file=file)]. *)
Definition print (l : line) : M unit :=
  fun s => (Store (hands s) (discard_pile s) (played_pile s) (file s ++ [l]),
            Ok tt).

(** [hands[acting_player_idx]], read. *)
Definition get_hand (acting_player_idx : nat) : M (list card) :=
  fun s => match hands s !! acting_player_idx with
           | Some hand => (s, Ok hand)
           | None => (s, Err IndexError)
           end.

(** The hand of [acting_player_idx] replaced by [hand], for the in-place
    [pop] and [append]. *)
Definition set_hand (acting_player_idx : nat) (hand : list card) : M unit :=
  fun s => (Store (<[acting_player_idx := hand]> (hands s)) (discard_pile s)
                  (played_pile s) (file s), Ok tt).

(** [hands[acting_player_idx].pop(idx)]. *)
Definition pop_hand (acting_player_idx : nat) (idx : Z) : M card :=
  let! hand := get_hand acting_player_idx in
  match py_pop hand idx with
  | Some (c, hand') => set_hand acting_player_idx hand' ;; ret c
  | None => raise IndexError
  end.

(** [hands[acting_player_idx].append(new_card)]. *)
Definition append_hand (acting_player_idx : nat) (new_card : card) : M unit :=
  let! hand := get_hand acting_player_idx in
  set_hand acting_player_idx (hand ++ [new_card]).

(** [discard_pile.append(card)]. *)
Definition append_discard (c : card) : M unit :=
  fun s => (Store (hands s) (discard_pile s ++ [c]) (played_pile s) (file s),
            Ok tt).

(** [played_pile[color]], read. *)
Definition get_played (color : string) : M Z :=
  fun s => match played_pile s !! color with
           | Some h => (s, Ok h)
           | None => (s, Err KeyError)
           end.

(** [played_pile[color] = rank]. *)
Definition set_played (color : string) (rank : Z) : M unit :=
  fun s => (Store (hands s) (discard_pile s) (<[color := rank]> (played_pile s))
                  (file s), Ok tt).

(** A pure computation that may raise. *)
Definition lift {A : Type} (r : result A) : M A := fun s => (s, r).

Definition of_option {A : Type} (e : exn) (o : option A) : result A :=
  match o with Some a => Ok a | None => Err e end.

(** ** Game state *)

(** The hands comprehension of [initialize_game_state]: one [card_str] per
    row of a slice, the first failing lookup ends it. *)
Fixpoint render_cards (cards : list card_tuple) (color_map : gmap Z string)
  : result (list card) :=
  match cards with
  | [] => Ok []
  | c :: rest =>
      match card_str c color_map with
      | Err e => Err e
      | Ok c' =>
          match render_cards rest color_map with
          | Err e => Err e
          | Ok rest' => Ok (c' :: rest')
          end
      end
  end.

Fixpoint deal_hands (game_deck : list card_tuple) (players : list Z)
    (color_map : gmap Z string) : result (list (list card)) :=
  match players with
  | [] => Ok []
  | i :: rest =>
      match render_cards (py_slice game_deck (i * 5) ((i + 1) * 5)) color_map with
      | Err e => Err e
      | Ok hand =>
          match deal_hands game_deck rest color_map with
          | Err e => Err e
          | Ok hands0 => Ok (hand :: hands0)
          end
      end
  end.

(** [{color: 0 for color in color_map.values()}]. *)
Definition initial_played_pile (color_map : gmap Z string) : gmap string Z :=
  list_to_map ((fun kv : Z * string => (kv.2, 0)) <$> map_to_list color_map).

Definition initialize_game_state (game_deck : list card_tuple)
    (num_players : Z) (color_map : gmap Z string)
  : result (list (list card) * list card * gmap string Z * Z) :=
  match deal_hands game_deck (range num_players) color_map with
  | Err e => Err e
  | Ok hands0 =>
      let discard_pile0 := [] in
      let played_pile0 := initial_played_pile color_map in
      let deck_draw_ptr := num_players * 5 in
      Ok (hands0, discard_pile0, played_pile0, deck_draw_ptr)
  end.

(** The closing block of both handlers, the same text in each: draw while
    the pointer is below 50. *)
Definition draw_new_card (acting_player_idx : nat) (game_deck : list card_tuple)
    (deck_draw_ptr : Z) (color_map : gmap Z string) : M Z :=
  let more_cards := deck_draw_ptr <? 50 in
  if more_cards then
    let! row := lift (of_option IndexError (py_index game_deck deck_draw_ptr)) in
    let! new_card := lift (card_str row color_map) in
    append_hand acting_player_idx new_card ;;
    print (DrewLine new_card) ;;
    ret (deck_draw_ptr + 1)
  else ret deck_draw_ptr.

(** [handle_discard]: the index check, the [pop], the append to the
    discard pile, then the draw.  [acting_player_idx] comes from
    [nonzero()] and is never negative; the value is the new draw pointer. *)
Definition handle_discard (action_value : Z) (acting_player_idx : nat)
    (game_deck : list card_tuple) (deck_draw_ptr : Z)
    (color_map : gmap Z string) : M Z :=
  let idx := action_value in
  let! hand := get_hand acting_player_idx in
  if Z.of_nat (length hand) <=? idx then
    raise (InvalidGameError "Game data contains an invalid discard index")
  else
    let! c := pop_hand acting_player_idx idx in
    append_discard c ;;
    print (DiscardedLine c) ;;
    draw_new_card acting_player_idx game_deck deck_draw_ptr color_map.

(** [handle_play]: the index check on [action_value - 5], the [pop], the
    card read back from its string, the stack of its color raised when
    the rank is above it, then the draw. *)
Definition handle_play (action_value : Z) (acting_player_idx : nat)
    (game_deck : list card_tuple) (deck_draw_ptr : Z)
    (color_map : gmap Z string) : M Z :=
  let idx := action_value - 5 in
  let! hand := get_hand acting_player_idx in
  if Z.of_nat (length hand) <=? idx then
    raise (InvalidGameError "Game data contains an invalid play index")
  else
    let! c := pop_hand acting_player_idx idx in
    print (PlayedLine c) ;;
    let! (color, rank) := lift (card_split c) in
    let! height := get_played color in
    (if height <? rank then set_played color rank else ret tt) ;;
    draw_new_card acting_player_idx game_deck deck_draw_ptr color_map.

(** ** The replay loop *)

(** [(action_vec != 30).nonzero()]: the positions whose code is not 30,
    in increasing order. *)
Fixpoint nonzero_from (i : nat) (action_vec : list Z) : list nat :=
  match action_vec with
  | [] => []
  | v :: rest =>
      if v =? 30 then nonzero_from (S i) rest
      else i :: nonzero_from (S i) rest
  end.

Definition nonzero_ne_30 (action_vec : list Z) : list nat :=
  nonzero_from 0 action_vec.

(** [t.item()]: the element of a one-element tensor. *)
Definition item {A : Type} (t : list A) : result A :=
  match t with
  | [x] => Ok x
  | _ => Err RuntimeError
  end.

Definition print_game_state : M unit :=
  fun s => print (StateLines (hands s) (discard_pile s) (played_pile s)) s.

(** The body of the [for] loop of [trace_game] at step [action_num]; the
    value is the draw pointer the next iteration starts from. *)
Definition trace_step (game_actions : list (list Z))
    (game_deck : list card_tuple) (action_descriptions : list string)
    (color_map : gmap Z string) (action_num : Z) (deck_draw_ptr : Z) : M Z :=
  let! action_vec :=
    lift (of_option IndexError (py_index game_actions action_num)) in
  let non_30 := nonzero_ne_30 action_vec in
  if (length non_30 =? 0)%nat then ret deck_draw_ptr
  else
    let! acting_player_idx := lift (item non_30) in
    let! action_value :=
      lift (of_option IndexError (action_vec !! acting_player_idx)) in
    if (action_value <? 0) || (30 <? action_value) then
      raise (InvalidGameError "Game data contains an invalid action value")
    else
      let! action_text :=
        lift (of_option IndexError (py_index action_descriptions action_value)) in
      print (StepLine action_num acting_player_idx action_text) ;;
      let! deck_draw_ptr' :=
        (if (0 <=? action_value) && (action_value <=? 4) then
           handle_discard action_value acting_player_idx game_deck
                          deck_draw_ptr color_map
         else if (5 <=? action_value) && (action_value <=? 9) then
           handle_play action_value acting_player_idx game_deck
                       deck_draw_ptr color_map
         else if (10 <=? action_value) && (action_value <=? 29) then
           print HintLine ;; ret deck_draw_ptr
         else ret deck_draw_ptr) in
      print_game_state ;;
      ret deck_draw_ptr'.

(** The [for] loop over the steps still to run; an exception leaves it. *)
Fixpoint trace_loop (game_actions : list (list Z))
    (game_deck : list card_tuple) (action_descriptions : list string)
    (color_map : gmap Z string) (steps : list Z) (deck_draw_ptr : Z) : M Z :=
  match steps with
  | [] => ret deck_draw_ptr
  | action_num :: rest =>
      let! deck_draw_ptr' :=
        trace_step game_actions game_deck action_descriptions color_map
                   action_num deck_draw_ptr in
      trace_loop game_actions game_deck action_descriptions color_map
                 rest deck_draw_ptr'
  end.

(** The state [trace_game] is in once the first [k] steps have run: the
    store, and the draw pointer unless an exception was raised.  [file0] is
    what the log file holds when the replay starts. *)
Definition replay (game_idx : Z) (game_actions : list (list Z))
    (game_deck : list card_tuple) (k : Z) (num_players : Z)
    (action_descriptions : list string) (color_map : gmap Z string)
    (file0 : list line) : store * result Z :=
  match initialize_game_state game_deck num_players color_map with
  | Err e => (Store [] [] ∅ file0, Err e)
  | Ok (hands0, discard_pile0, played_pile0, deck_draw_ptr) =>
      (print (HeaderLine game_idx) ;;
       trace_loop game_actions game_deck action_descriptions color_map
                  (range k) deck_draw_ptr)
        (Store hands0 discard_pile0 played_pile0 file0)
  end.

Definition trace_game (game_idx : Z) (game_actions : list (list Z))
    (game_deck : list card_tuple) (num_actions : Z) (num_players : Z)
    (score : Z) (action_descriptions : list string)
    (color_map : gmap Z string) (file0 : list line) : store * result unit :=
  match replay game_idx game_actions game_deck num_actions num_players
               action_descriptions color_map file0 with
  | (s, Err e) => (s, Err e)
  | (s, Ok _) => (print (FinalScoreLine score) ;; print EndLine) s
  end.

(** ** The batch driver *)

(** The tensors of the safetensors file. *)
Record dataset : Type := Dataset {
  ds_actions : list (list (list Z));
  ds_decks : list (list card_tuple);
  ds_num_actions : list Z;
  ds_num_players : Z;
  ds_scores : list Z
}.

Definition load_game_data (ds : dataset) (game_idx : Z)
  : result (list (list Z) * list card_tuple * Z * Z * Z) :=
  let num_games := Z.of_nat (length (ds_actions ds)) in
  if num_games <=? game_idx then
    Err (InvalidGameError
           ("Game index " +:+ pretty game_idx +:+
            " is out of bounds. The dataset contains " +:+ pretty num_games +:+
            " games."))
  else
    match py_index (ds_actions ds) game_idx,
          py_index (ds_decks ds) game_idx,
          py_index (ds_num_actions ds) game_idx,
          py_index (ds_scores ds) game_idx with
    | Some actions, Some deck, Some num_actions, Some score =>
        Ok (actions, deck, num_actions, ds_num_players ds, score)
    | _, _, _, _ => Err IndexError
    end.

(** The body of the [try] of [main] for game [i], on the freshly opened
    log file: what it wrote and how it ended. *)
Definition try_body (ds : dataset) (action_descriptions : list string)
    (color_map : gmap Z string) (i : Z) : list line * result unit :=
  let log_file : list line := [] in
  match load_game_data ds i with
  | Err e => (log_file, Err e)
  | Ok (actions, deck, num_actions, num_players, score) =>
      let '(s, r) := trace_game i actions deck num_actions num_players score
                                action_descriptions color_map log_file in
      (file s, r)
  end.

(** The [try] with its [except InvalidGameError]: the final contents of
    the log file, and the exception that escapes, if any. *)
Definition trace_to_log (ds : dataset) (action_descriptions : list string)
    (color_map : gmap Z string) (i : Z) : list line * option exn :=
  match try_body ds action_descriptions color_map i with
  | (written, Ok _) => (written, None)
  | (written, Err (InvalidGameError msg)) =>
      (written ++ [ErrorLine i msg], None)
  | (written, Err e) => (written, Some e)
  end.

(** The [for] loop of [main]; [logs] maps [i + 1] to the contents of
    [game_{i+1}.txt].  An exception that escapes ends the program. *)
Fixpoint main_loop (ds : dataset) (action_descriptions : list string)
    (color_map : gmap Z string) (games : list Z) (logs : gmap Z (list line))
  : gmap Z (list line) * option exn :=
  match games with
  | [] => (logs, None)
  | i :: rest =>
      let '(written, escaped) :=
        trace_to_log ds action_descriptions color_map i in
      let logs' := <[i + 1 := written]> logs in
      match escaped with
      | Some e => (logs', Some e)
      | None => main_loop ds action_descriptions color_map rest logs'
      end
  end.

Definition main (ds : dataset) (action_descriptions : list string)
    (color_map : gmap Z string) (logs : gmap Z (list line))
  : gmap Z (list line) * option exn :=
  let num_games := Z.of_nat (length (ds_actions ds)) in
  main_loop ds action_descriptions color_map (range num_games) logs.

(** ** Quantities of the conservation law *)

(** The cards held in all hands. *)
Fixpoint total_cards (hs : list (list card)) : nat :=
  match hs with
  | [] => 0
  | hand :: rest => length hand + total_cards rest
  end.

Definition is_played_line (l : line) : bool :=
  match l with PlayedLine _ => true | _ => false end.

(** The cards consumed by play actions, as the log records them: one
    ["-> Played"] line each. *)
Definition cards_played (f : list line) : nat :=
  length (filter (fun l => is_played_line l = true) f).

(** The deck cards at and past the draw pointer. *)
Definition undrawn (game_deck : list card_tuple) (deck_draw_ptr : Z) : nat :=
  length (drop (Z.to_nat deck_draw_ptr) game_deck).

(** The cards that left the deck and are accounted for: held in a hand,
    discarded, or played. *)
Definition held (s : store) : nat :=
  (total_cards (hands s) + length (discard_pile s) + cards_played (file s))%nat.

(** The conservation law at a state of the replay whose log started with
    [n0] played cards recorded: the cards accounted for and the undrawn
    ones make up the deck.  The last part says that the draw pointer can
    only be negative when there is no hand to draw into. *)
Definition conserved (game_deck : list card_tuple) (n0 : nat) (s : store)
    (deck_draw_ptr : Z) : Prop :=
  (held s + undrawn game_deck deck_draw_ptr = length game_deck + n0)%nat /\
  (n0 <= cards_played (file s))%nat /\
  (0 <= deck_draw_ptr \/ hands s = []).


(** Every color name of the table is a single token for [split()]. *)
Definition names_are_tokens (color_map : gmap Z string) : Prop :=
  forall color name,
    color_map !! color = Some name -> str_split EmptyString name = [name].

(** The cards in the hands carry names of the table, and every name of the
    table has its stack in the played pile. *)
Definition stacks_cover (color_map : gmap Z string) (s : store) : Prop :=
  (forall hand c, hand ∈ hands s -> c ∈ hand ->
     exists color, color_map !! color = Some (color_name c)) /\
  (forall color name,
     color_map !! color = Some name -> is_Some (played_pile s !! name)).


(** The part of the store the game rules speak of, with the draw pointer. *)
Definition game_state (s : store) (deck_draw_ptr : Z)
  : list (list card) * list card * gmap string Z * Z :=
  (hands s, discard_pile s, played_pile s, deck_draw_ptr).

(** ** Example data *)

Definition example_color_map : gmap Z string :=
  list_to_map [(0, "R"); (1, "Y"); (2, "G"); (3, "W"); (4, "B")]%string.

Definition example_descriptions : list string := repeat "action"%string 31.

(** Ten distinct cards: R1..R5 then Y1..Y5. *)
Definition example_deck10 : list card_tuple :=
  [(0,0); (0,1); (0,2); (0,3); (0,4); (1,0); (1,1); (1,2); (1,3); (1,4)].

Definition example_deck50 : list card_tuple :=
  example_deck10 ++ repeat (2, 2) 40.

Definition example_deck60 : list card_tuple :=
  example_deck10 ++ repeat (2, 2) 50.

(** One player holding R1..R5, nothing discarded or played yet. *)
Definition example_store : store :=
  Store [[Card "R" 1; Card "R" 2; Card "R" 3; Card "R" 4; Card "R" 5]] []
        (initial_played_pile example_color_map) [].

(** Two games of two players; the deck of the first starts with a card
    whose color has no name in [example_color_map]. *)
Definition example_unknown_color : dataset :=
  Dataset [[[3; 30]]; [[30; 5]]]
          [((9, 0) :: repeat (0, 0) 49); example_deck50]
          [1; 1] 2 [0; 0].

(** Two games of two players; in the only step of the first both players
    have a code other than 30. *)
Definition example_two_actors : dataset :=
  Dataset [[[3; 7]]; [[30; 5]]] [example_deck50; example_deck50]
          [1; 1] 2 [0; 0].

(** Two games of two players; the first carries the code 31, the second
    plays a card. *)
Definition example_invalid_value : dataset :=
  Dataset [[[31; 30]]; [[30; 5]]] [example_deck50; example_deck50]
          [1; 1] 2 [0; 0].

(** ** Readings of the log *)

(** The lines the loop of [trace_game] prints itself, outside the
    handlers. *)
Definition is_step_line (l : line) : bool :=
  match l with
  | StepLine _ _ _ | HintLine | StateLines _ _ _ => true
  | _ => false
  end.

Definition is_drew_line (l : line) : bool :=
  match l with DrewLine _ => true | _ => false end.

(** The number of ["-> Drew"] lines. *)
Definition cards_drawn (f : list line) : nat :=
  length (filter (fun l => is_drew_line l = true) f).

(** The cards of the ["-> Discarded"] lines, in order. *)
Fixpoint discards_logged (f : list line) : list card :=
  match f with
  | [] => []
  | DiscardedLine c :: rest => c :: discards_logged rest
  | _ :: rest => discards_logged rest
  end.

(** What a line says was played in [color]: the rank of a ["-> Played"]
    line whose card reads back, as [handle_play] reads it, with that
    color; 0 for any other line. *)
Definition played_rank (color : string) (l : line) : Z :=
  match l with
  | PlayedLine c =>
      match card_split c with
      | Ok (color', rank) => if decide (color' = color) then rank else 0
      | Err _ => 0
      end
  | _ => 0
  end.

(** The highest rank the log says was played in [color], 0 if none. *)
Fixpoint highest_played (color : string) (f : list line) : Z :=
  match f with
  | [] => 0
  | l :: rest => Z.max (played_rank color l) (highest_played color rest)
  end.

(** [s'] continues [s]: the log and the discard pile have only grown at
    their ends, and the players are as many. *)
Definition continues (s s' : store) : Prop :=
  file s `prefix_of` file s' /\
  discard_pile s `prefix_of` discard_pile s' /\
  length (hands s') = length (hands s).

(** The number of lines of the log that [P] picks. *)
Definition count_lines (P : line -> bool) (f : list line) : nat :=
  length (filter (fun l => P l = true) f).

Definition is_step_header (l : line) : bool :=
  match l with StepLine _ _ _ => true | _ => false end.

Definition is_state_lines (l : line) : bool :=
  match l with StateLines _ _ _ => true | _ => false end.

(** The steps the log announces (["Step n: Player p ..."]) and the
    snapshots of the state it holds. *)
Definition steps_logged (f : list line) : nat := count_lines is_step_header f.
Definition snapshots_logged (f : list line) : nat :=
  count_lines is_state_lines f.

(** The balance of one run: as many snapshots as announced steps when it
    returns, at most one snapshot missing when it raises. *)
Definition snapshots_follow_steps (s s' : store) (r : result Z) : Prop :=
  match r with
  | Ok _ =>
      (steps_logged (file s') + snapshots_logged (file s) =
       snapshots_logged (file s') + steps_logged (file s))%nat
  | Err _ =>
      (steps_logged (file s') + snapshots_logged (file s) =
       snapshots_logged (file s') + steps_logged (file s))%nat \/
      (steps_logged (file s') + snapshots_logged (file s) =
       S (snapshots_logged (file s') + steps_logged (file s)))%nat
  end.

(** No hand holds more than five cards. *)
Definition at_most_five (s : store) : Prop :=
  forall hand, hand ∈ hands s -> (length hand <= 5)%nat.

(** The exceptions that come from the recorded game itself: an
    [InvalidGameError], an index out of range, or the [item()] of several
    acting players. *)
Definition data_error (e : exn) : Prop :=
  (exists msg, e = InvalidGameError msg) \/ e = IndexError \/ e = RuntimeError.

(** ** The JSON export ([inspect_game.py]) *)

#[local] Set Warnings "-register-all".

(** A tensor of integers: a 0-dimensional one holds a number, any other is
    the sequence of its entries along the first dimension. *)
Inductive tensor : Type :=
  | Scalar (v : Z)
  | Rows (rows : list tensor).

(** What [item()] and [tolist()] give, and [json.dump] writes. *)
Inductive json : Type :=
  | JNum (v : Z)
  | JArr (items : list json).

(** [t.tolist()] (a number for a 0-dimensional tensor). *)
Fixpoint tolist (t : tensor) : json :=
  match t with
  | Scalar v => JNum v
  | Rows rows => JArr (List.map tolist rows)
  end.

(** The body of the loop of [extract_game_data] for one tensor. *)
Definition extract_entry (t : tensor) (game_idx : Z) : result json :=
  match t with
  | Scalar v => Ok (JNum v)
  | Rows rows =>
      match py_index rows game_idx with
      | None => Err IndexError
      | Some entry =>
          match entry with
          | Scalar v => Ok (JNum v)
          | Rows _ => Ok (tolist entry)
          end
      end
  end.

(** The loop over the tensors still to read, filling [game_data]. *)
Fixpoint extract_loop (tensors : list (string * tensor)) (game_idx : Z)
    (game_data : gmap string json) : result (gmap string json) :=
  match tensors with
  | [] => Ok game_data
  | (name, t) :: rest =>
      match extract_entry t game_idx with
      | Err e => Err e
      | Ok entry => extract_loop rest game_idx (<[name := entry]> game_data)
      end
  end.

(** [extract_game_data]: the dictionary handed to [json.dump], from the
    tensors of the file in the order of [f.keys()]. *)
Definition extract_game_data (tensors : list (string * tensor))
    (game_idx : Z) : result (gmap string json) :=
  extract_loop tensors game_idx ∅.

(** A color map whose only name has two words, and a deck of fifty cards
    of that color, all of rank index 1. *)
Definition example_two_word_map : gmap Z string :=
  {[0 := "Light Blue"%string]}.

Definition example_deck_blue : list card_tuple := repeat (0, 1) 50.

(** The tensors of a file with two games of two players, one step each. *)
Definition example_tensors : list (string * tensor) :=
  [("actions"%string,
    Rows [Rows [Rows [Scalar 3; Scalar 30]]; Rows [Rows [Scalar 30; Scalar 5]]]);
   ("num_actions"%string, Rows [Scalar 1; Scalar 1]);
   ("num_players"%string, Scalar 2);
   ("scores"%string, Rows [Scalar 7; Scalar 9])].

(** ** Equations of the handlers *)

Lemma draw_new_card_eq p deck ptr cm s :
  draw_new_card p deck ptr cm s =
  if ptr <? 50 then
    match py_index deck ptr with
    | None => (s, Err IndexError)
    | Some row =>
        match card_str row cm with
        | Err e => (s, Err e)
        | Ok new_card =>
            match hands s !! p with
            | None => (s, Err IndexError)
            | Some hand =>
                (Store (<[p := hand ++ [new_card]]> (hands s)) (discard_pile s)
                       (played_pile s) (file s ++ [DrewLine new_card]),
                 Ok (ptr + 1))
            end
        end
    end
  else (s, Ok ptr).
Proof.
  cbv [draw_new_card bind lift of_option append_hand get_hand set_hand
       print ret].
  destruct (ptr <? 50); [|done].
  destruct (py_index deck ptr) as [row|]; [|done].
  destruct (card_str row cm) as [new_card|e]; [|done].
  by destruct (hands s !! p).
Qed.

Lemma pop_hand_eq p idx s :
  pop_hand p idx s =
  match hands s !! p with
  | None => (s, Err IndexError)
  | Some hand =>
      match py_pop hand idx with
      | None => (s, Err IndexError)
      | Some (c, hand') =>
          (Store (<[p := hand']> (hands s)) (discard_pile s) (played_pile s)
                 (file s), Ok c)
      end
  end.
Proof.
  cbv [pop_hand bind get_hand set_hand raise ret].
  destruct (hands s !! p) as [hand|]; [|done].
  by destruct (py_pop hand idx) as [[c hand']|].
Qed.

Lemma handle_discard_eq v p deck ptr cm s :
  handle_discard v p deck ptr cm s =
  match hands s !! p with
  | None => (s, Err IndexError)
  | Some hand =>
      if Z.of_nat (length hand) <=? v then
        (s, Err (InvalidGameError "Game data contains an invalid discard index"))
      else
        match py_pop hand v with
        | None => (s, Err IndexError)
        | Some (c, hand') =>
            draw_new_card p deck ptr cm
              (Store (<[p := hand']> (hands s)) (discard_pile s ++ [c])
                     (played_pile s) (file s ++ [DiscardedLine c]))
        end
  end.
Proof.
  unfold handle_discard. unfold bind at 1. unfold get_hand at 1.
  destruct (hands s !! p) as [hand|] eqn:Hp; [|done].
  destruct (Z.of_nat (length hand) <=? v); [done|].
  unfold bind at 1. rewrite pop_hand_eq, Hp.
  by destruct (py_pop hand v) as [[c hand']|].
Qed.

Lemma handle_play_eq v p deck ptr cm s :
  handle_play v p deck ptr cm s =
  match hands s !! p with
  | None => (s, Err IndexError)
  | Some hand =>
      if Z.of_nat (length hand) <=? v - 5 then
        (s, Err (InvalidGameError "Game data contains an invalid play index"))
      else
        match py_pop hand (v - 5) with
        | None => (s, Err IndexError)
        | Some (c, hand') =>
            let s1 := Store (<[p := hand']> (hands s)) (discard_pile s)
                            (played_pile s) (file s ++ [PlayedLine c]) in
            match card_split c with
            | Err e => (s1, Err e)
            | Ok (color, rank) =>
                match played_pile s !! color with
                | None => (s1, Err KeyError)
                | Some height =>
                    draw_new_card p deck ptr cm
                      (Store (hands s1) (discard_pile s1)
                             (if height <? rank
                              then <[color := rank]> (played_pile s)
                              else played_pile s)
                             (file s1))
                end
            end
        end
  end.
Proof.
  unfold handle_play. unfold bind at 1. unfold get_hand at 1.
  destruct (hands s !! p) as [hand|] eqn:Hp; [|done].
  destruct (Z.of_nat (length hand) <=? v - 5); [done|].
  unfold bind at 1. rewrite pop_hand_eq, Hp.
  destruct (py_pop hand (v - 5)) as [[c hand']|]; [|done].
  destruct s as [hs dp pp f]; simpl in *.
  cbv [bind print lift get_played set_played ret]; simpl.
  destruct (card_split c) as [[color rank]|e]; [|done]. simpl.
  destruct (pp !! color) as [height|]; [|done].
  by destruct (height <? rank).
Qed.

(** ** Indexing lemmas *)

Lemma py_pop_valid {A : Type} (l : list A) (i : Z) (x : A) :
  0 <= i < Z.of_nat (length l) ->
  l !! Z.to_nat i = Some x ->
  py_pop l i = Some (x, delete (Z.to_nat i) l).
Proof.
  intros Hi Hx. unfold py_pop.
  destruct (Z.ltb_spec i 0) as [?|_]; [lia|].
  destruct (Z.ltb_spec i 0) as [?|_]; [lia|].
  destruct (Z.leb_spec (Z.of_nat (length l)) i) as [?|_]; [lia|].
  simpl. by rewrite Hx.
Qed.

Lemma py_pop_out_of_range {A : Type} (l : list A) (i : Z) :
  ~ (- Z.of_nat (length l) <= i < Z.of_nat (length l)) ->
  py_pop l i = None.
Proof.
  intros Hi. unfold py_pop.
  destruct (Z.ltb_spec i 0).
  - destruct (Z.ltb_spec (i + Z.of_nat (length l)) 0); [done|lia].
  - destruct (Z.ltb_spec i 0); [lia|].
    destruct (Z.leb_spec (Z.of_nat (length l)) i); [done|lia].
Qed.

Lemma py_pop_length {A : Type} (l l' : list A) (i : Z) (x : A) :
  py_pop l i = Some (x, l') -> length l = S (length l').
Proof.
  unfold py_pop.
  set (j := if i <? 0 then i + Z.of_nat (length l) else i).
  destruct ((j <? 0) || (Z.of_nat (length l) <=? j)); [done|].
  destruct (l !! Z.to_nat j) as [y|] eqn:Hy; [|done].
  intros [= <- <-]. apply lookup_lt_Some in Hy.
  rewrite length_delete; [lia | eauto using lookup_lt_is_Some_2].
Qed.

Lemma py_index_valid {A : Type} (l : list A) (i : Z) :
  0 <= i < Z.of_nat (length l) -> py_index l i = l !! Z.to_nat i.
Proof.
  intros Hi. unfold py_index.
  destruct (Z.ltb_spec i 0) as [?|_]; [lia|].
  destruct (Z.ltb_spec i 0) as [?|_]; [lia|].
  by destruct (Z.leb_spec (Z.of_nat (length l)) i) as [?|_]; [lia|].
Qed.

Lemma py_index_Some_bounds {A : Type} (l : list A) (i : Z) (x : A) :
  py_index l i = Some x ->
  - Z.of_nat (length l) <= i < Z.of_nat (length l).
Proof.
  unfold py_index.
  destruct (Z.ltb_spec i 0).
  - destruct (Z.ltb_spec (i + Z.of_nat (length l)) 0); [done|].
    intros _. lia.
  - destruct (Z.ltb_spec i 0); [lia|].
    destruct (Z.leb_spec (Z.of_nat (length l)) i); [done|]. intros _. lia.
Qed.

(** ** The handlers on a valid index *)

Lemma draw_new_card_exhausted p deck ptr cm s :
  50 <= ptr -> draw_new_card p deck ptr cm s = (s, Ok ptr).
Proof.
  intros Hptr. rewrite draw_new_card_eq.
  by destruct (Z.ltb_spec ptr 50); [lia|].
Qed.

Lemma draw_new_card_draws p deck ptr cm s row new_card hand :
  ptr < 50 ->
  py_index deck ptr = Some row ->
  card_str row cm = Ok new_card ->
  hands s !! p = Some hand ->
  draw_new_card p deck ptr cm s =
  (Store (<[p := hand ++ [new_card]]> (hands s)) (discard_pile s)
         (played_pile s) (file s ++ [DrewLine new_card]), Ok (ptr + 1)).
Proof.
  intros Hptr Hrow Hnew Hhand. rewrite draw_new_card_eq, Hrow, Hnew, Hhand.
  by destruct (Z.ltb_spec ptr 50); [|lia].
Qed.

Lemma handle_discard_valid v p deck ptr cm s hand c :
  hands s !! p = Some hand ->
  0 <= v < Z.of_nat (length hand) ->
  hand !! Z.to_nat v = Some c ->
  handle_discard v p deck ptr cm s =
  draw_new_card p deck ptr cm
    (Store (<[p := delete (Z.to_nat v) hand]> (hands s)) (discard_pile s ++ [c])
           (played_pile s) (file s ++ [DiscardedLine c])).
Proof.
  intros Hhand Hv Hc. rewrite handle_discard_eq, Hhand.
  destruct (Z.leb_spec (Z.of_nat (length hand)) v); [lia|].
  by rewrite (py_pop_valid hand v c).
Qed.

Lemma handle_play_valid v p deck ptr cm s hand c color height :
  hands s !! p = Some hand ->
  0 <= v - 5 < Z.of_nat (length hand) ->
  hand !! Z.to_nat (v - 5) = Some c ->
  card_split c = Ok (color, rank1 c) ->
  played_pile s !! color = Some height ->
  handle_play v p deck ptr cm s =
  draw_new_card p deck ptr cm
    (Store (<[p := delete (Z.to_nat (v - 5)) hand]> (hands s)) (discard_pile s)
           (if height <? rank1 c then <[color := rank1 c]> (played_pile s)
            else played_pile s)
           (file s ++ [PlayedLine c])).
Proof.
  intros Hhand Hv Hc Hsplit Hheight. rewrite handle_play_eq, Hhand.
  destruct (Z.leb_spec (Z.of_nat (length hand)) (v - 5)); [lia|].
  rewrite (py_pop_valid hand (v - 5) c) by done. simpl.
  by rewrite Hsplit, Hheight.
Qed.

(** ** Drawing after a discard or a play *)

(** C1, as the code has it: after a discard on a valid index, or a play on
    a valid index of a card whose string reads back as a color that has a
    stack, the acting hand has lost the chosen card, and it gains the deck
    card under the draw pointer, the pointer moving on by one, exactly
    when the pointer is below the constant 50 (the draw then reads the
    deck at the pointer, which has to exist and to carry a known color);
    from 50 on nothing is drawn and the pointer stays. *)
Theorem draw_iff_pointer_below_50 v p deck ptr cm s hand c :
  hands s !! p = Some hand ->
  (0 <= v < Z.of_nat (length hand) ->
   hand !! Z.to_nat v = Some c ->
   (50 <= ptr ->
    exists s', handle_discard v p deck ptr cm s = (s', Ok ptr) /\
      hands s' !! p = Some (delete (Z.to_nat v) hand)) /\
   (ptr < 50 -> forall row new_card,
    py_index deck ptr = Some row -> card_str row cm = Ok new_card ->
    exists s', handle_discard v p deck ptr cm s = (s', Ok (ptr + 1)) /\
      hands s' !! p = Some (delete (Z.to_nat v) hand ++ [new_card]))) /\
  (0 <= v - 5 < Z.of_nat (length hand) ->
   hand !! Z.to_nat (v - 5) = Some c ->
   forall color height,
   card_split c = Ok (color, rank1 c) ->
   played_pile s !! color = Some height ->
   (50 <= ptr ->
    exists s', handle_play v p deck ptr cm s = (s', Ok ptr) /\
      hands s' !! p = Some (delete (Z.to_nat (v - 5)) hand)) /\
   (ptr < 50 -> forall row new_card,
    py_index deck ptr = Some row -> card_str row cm = Ok new_card ->
    exists s', handle_play v p deck ptr cm s = (s', Ok (ptr + 1)) /\
      hands s' !! p = Some (delete (Z.to_nat (v - 5)) hand ++ [new_card]))).
Proof.
  intros Hhand. pose proof (lookup_lt_Some _ _ _ Hhand) as Hp. split.
  - intros Hv Hc. rewrite (handle_discard_valid _ _ _ _ _ _ _ _ Hhand Hv Hc).
    split.
    + intros Hptr. rewrite draw_new_card_exhausted by done.
      eexists; split; [done|]. simpl. by apply list_lookup_insert_eq.
    + intros Hptr row new_card Hrow Hnew.
      erewrite draw_new_card_draws; [|done..|];
        simpl; [|by apply list_lookup_insert_eq].
      eexists; split; [done|]. simpl.
      rewrite list_insert_insert_eq. by apply list_lookup_insert_eq.
  - intros Hv Hc color height Hsplit Hheight.
    rewrite (handle_play_valid _ _ _ _ _ _ _ _ _ _ Hhand Hv Hc Hsplit Hheight).
    split.
    + intros Hptr. rewrite draw_new_card_exhausted by done.
      eexists; split; [done|]. simpl. by apply list_lookup_insert_eq.
    + intros Hptr row new_card Hrow Hnew.
      erewrite draw_new_card_draws; [|done..|];
        simpl; [|by apply list_lookup_insert_eq].
      eexists; split; [done|]. simpl.
      rewrite list_insert_insert_eq. by apply list_lookup_insert_eq.
Qed.

Lemma draw_iff_pointer_below_50_witness :
  let hand := [Card "R" 1; Card "R" 2; Card "R" 3; Card "R" 4; Card "R" 5] in
  (exists s',
     handle_discard 3 0 example_deck50 10 example_color_map example_store
       = (s', Ok 11) /\
     hands s' !! 0%nat = Some (delete 3%nat hand ++ [Card "G" 3])) /\
  (exists s',
     handle_play 8 0 example_deck50 50 example_color_map example_store
       = (s', Ok 50) /\
     hands s' !! 0%nat = Some (delete 3%nat hand)).
Proof.
  intros hand. split.
  - destruct (draw_iff_pointer_below_50 3 0 example_deck50 10
                example_color_map example_store hand (Card "R" 4) eq_refl)
      as [Hdiscard _].
    destruct (Hdiscard ltac:(simpl; lia) eq_refl) as [_ Hdraw].
    exact (Hdraw ltac:(lia) (2, 2) (Card "G" 3) eq_refl eq_refl).
  - destruct (draw_iff_pointer_below_50 8 0 example_deck50 50
                example_color_map example_store hand (Card "R" 4) eq_refl)
      as [_ Hplay].
    destruct (Hplay ltac:(simpl; lia) eq_refl "R"%string 0 eq_refl eq_refl)
      as [Hstay _].
    exact (Hstay ltac:(lia)).
Defined.

(** C1 as stated fails on the code: with a 60-card deck and the pointer at
    50 a card remains under the pointer but none is drawn; with the
    10-card deck of two players the pointer (10) is not below the deck
    length, yet the draw is attempted and the step ends in an
    [IndexError] instead of doing nothing; and with a color of two words
    a play at pointer 5, below the length of the 50-card deck, removes the
    card and stops on its string with [ValueError], nothing drawn. *)
Lemma draw_not_iff_below_deck_length :
  (50 < Z.of_nat (length example_deck60) /\
   handle_discard 3 0 example_deck60 50 example_color_map example_store =
     (Store [[Card "R" 1; Card "R" 2; Card "R" 3; Card "R" 5]]
            [Card "R" 4] (initial_played_pile example_color_map)
            [DiscardedLine (Card "R" 4)], Ok 50)) /\
  (~ 10 < Z.of_nat (length example_deck10) /\
   (replay 0 [[3; 30]] example_deck10 1 2 example_descriptions
           example_color_map []).2 = Err IndexError) /\
  (5 < Z.of_nat (length example_deck_blue) /\
   let r := replay 0 [[5]] example_deck_blue 1 1 example_descriptions
                   example_two_word_map [] in
   r.2 = Err ValueError /\
   hands r.1 = [[Card "Light Blue" 2; Card "Light Blue" 2;
                 Card "Light Blue" 2; Card "Light Blue" 2]]).
Proof.
  split; [split|split; [split|split; [|split]]].
  - vm_compute. reflexivity.
  - vm_compute. reflexivity.
  - simpl. lia.
  - vm_compute. reflexivity.
  - simpl. lia.
  - vm_compute. reflexivity.
  - vm_compute. reflexivity.
Qed.

(** ** Index checks of the handlers *)

(** C7: a discard whose index [v], or a play whose index [v - 5], is at
    least the length of the acting hand (equal to it included) ends in
    [InvalidGameError]; the index is neither clamped nor wrapped. *)
Theorem index_beyond_hand_raises v p deck ptr cm s hand :
  hands s !! p = Some hand ->
  (Z.of_nat (length hand) <= v ->
   (handle_discard v p deck ptr cm s).2 =
     Err (InvalidGameError "Game data contains an invalid discard index")) /\
  (Z.of_nat (length hand) <= v - 5 ->
   (handle_play v p deck ptr cm s).2 =
     Err (InvalidGameError "Game data contains an invalid play index")).
Proof.
  intros Hhand. split; intros Hv.
  - rewrite handle_discard_eq, Hhand.
    by destruct (Z.leb_spec (Z.of_nat (length hand)) v); [|lia].
  - rewrite handle_play_eq, Hhand.
    by destruct (Z.leb_spec (Z.of_nat (length hand)) (v - 5)); [|lia].
Qed.

Lemma index_beyond_hand_raises_witness :
  (handle_discard 4 0 example_deck50 49 example_color_map
     (Store [[Card "R" 1; Card "R" 2; Card "R" 3; Card "R" 4]] [] ∅ [])).2 =
    Err (InvalidGameError "Game data contains an invalid discard index") /\
  (handle_play 9 0 example_deck50 49 example_color_map
     (Store [[Card "R" 1; Card "R" 2; Card "R" 3; Card "R" 4]] [] ∅ [])).2 =
    Err (InvalidGameError "Game data contains an invalid play index").
Proof.
  split.
  - apply (index_beyond_hand_raises 4 0 example_deck50 49 example_color_map
             (Store [[Card "R" 1; Card "R" 2; Card "R" 3; Card "R" 4]] [] ∅ [])
             [Card "R" 1; Card "R" 2; Card "R" 3; Card "R" 4] eq_refl).
    simpl. lia.
  - apply (index_beyond_hand_raises 9 0 example_deck50 49 example_color_map
             (Store [[Card "R" 1; Card "R" 2; Card "R" 3; Card "R" 4]] [] ∅ [])
             [Card "R" 1; Card "R" 2; Card "R" 3; Card "R" 4] eq_refl).
    simpl. lia.
Defined.

(** C10: when the index is out of the hand's bounds the handler fails
    before it has changed anything: the store it leaves (hands, discard
    pile, played pile, log) is the one it was given, and no new draw
    pointer is returned. *)
Theorem out_of_bounds_is_atomic v p deck ptr cm s hand :
  hands s !! p = Some hand ->
  (~ (- Z.of_nat (length hand) <= v < Z.of_nat (length hand)) ->
   exists e, handle_discard v p deck ptr cm s = (s, Err e)) /\
  (~ (- Z.of_nat (length hand) <= v - 5 < Z.of_nat (length hand)) ->
   exists e, handle_play v p deck ptr cm s = (s, Err e)).
Proof.
  intros Hhand. split; intros Hv.
  - rewrite handle_discard_eq, Hhand.
    destruct (Z.of_nat (length hand) <=? v); [by eexists|].
    rewrite py_pop_out_of_range by done. by eexists.
  - rewrite handle_play_eq, Hhand.
    destruct (Z.of_nat (length hand) <=? v - 5); [by eexists|].
    rewrite py_pop_out_of_range by done. by eexists.
Qed.

Lemma out_of_bounds_is_atomic_witness :
  (exists e, handle_discard 5 0 example_deck50 10 example_color_map
               example_store = (example_store, Err e)) /\
  (exists e, handle_play 10 0 example_deck50 10 example_color_map
               example_store = (example_store, Err e)).
Proof.
  split.
  - apply (out_of_bounds_is_atomic 5 0 example_deck50 10 example_color_map
             example_store _ eq_refl).
    simpl. lia.
  - apply (out_of_bounds_is_atomic 10 0 example_deck50 10 example_color_map
             example_store _ eq_refl).
    simpl. lia.
Defined.

(** ** One step of the replay *)

(** The step once its vector is known. *)
Lemma trace_step_vec actions deck descs cm action_num ptr action_vec s :
  py_index actions action_num = Some action_vec ->
  trace_step actions deck descs cm action_num ptr s =
  match nonzero_ne_30 action_vec with
  | [] => (s, Ok ptr)
  | [p] =>
      match action_vec !! p with
      | None => (s, Err IndexError)
      | Some v =>
          if (v <? 0) || (30 <? v) then
            (s, Err (InvalidGameError
                       "Game data contains an invalid action value"))
          else
            match py_index descs v with
            | None => (s, Err IndexError)
            | Some action_text =>
                (let! ptr' :=
                   (if (0 <=? v) && (v <=? 4) then
                      handle_discard v p deck ptr cm
                    else if (5 <=? v) && (v <=? 9) then
                      handle_play v p deck ptr cm
                    else if (10 <=? v) && (v <=? 29) then
                      print HintLine ;; ret ptr
                    else ret ptr) in
                 print_game_state ;; ret ptr')
                  (Store (hands s) (discard_pile s) (played_pile s)
                         (file s ++ [StepLine action_num p action_text]))
            end
      end
  | _ :: _ :: _ => (s, Err RuntimeError)
  end.
Proof.
  intros Hvec. unfold trace_step. unfold bind at 1, lift at 1.
  rewrite Hvec. simpl.
  destruct (nonzero_ne_30 action_vec) as [|p [|q rest]]; simpl; [done| |done].
  unfold bind at 1, lift at 1. simpl.
  unfold bind at 1, lift at 1.
  destruct (action_vec !! p) as [v|]; simpl; [|done].
  destruct ((v <? 0) || (30 <? v)); [done|].
  unfold bind at 1, lift at 1.
  destruct (py_index descs v) as [action_text|]; simpl; [|done].
  unfold bind at 1, print at 1. done.
Qed.

(** C4: a step vector with more than one entry different from 30 makes the
    step fail, on the [item()] of the several positions found: no actor is
    picked among them, nothing is applied or printed, and the loop ends
    there with the same error. *)
Theorem several_actors_raise actions deck descs cm action_num ptr
    action_vec s :
  py_index actions action_num = Some action_vec ->
  (1 < length (nonzero_ne_30 action_vec))%nat ->
  trace_step actions deck descs cm action_num ptr s = (s, Err RuntimeError) /\
  forall rest,
    trace_loop actions deck descs cm (action_num :: rest) ptr s =
      (s, Err RuntimeError).
Proof.
  intros Hvec Hlen.
  assert (Hstep : trace_step actions deck descs cm action_num ptr s =
                  (s, Err RuntimeError)).
  { rewrite (trace_step_vec _ _ _ _ _ _ _ _ Hvec).
    destruct (nonzero_ne_30 action_vec) as [|p [|q rest]];
      simpl in Hlen; [lia|lia|done]. }
  split; [done|]. intros rest. simpl. unfold bind. by rewrite Hstep.
Qed.

Lemma several_actors_raise_witness :
  trace_step [[3; 7; 30]] example_deck50 example_descriptions
             example_color_map 0 15 example_store
    = (example_store, Err RuntimeError) /\
  forall rest,
    trace_loop [[3; 7; 30]] example_deck50 example_descriptions
               example_color_map (0 :: rest) 15 example_store
      = (example_store, Err RuntimeError).
Proof.
  apply (several_actors_raise [[3; 7; 30]] example_deck50
           example_descriptions example_color_map 0 15 [3; 7; 30]
           example_store eq_refl).
  simpl. lia.
Defined.

(** C8: when the acting player's code is below 0 or above 30 the step
    fails with [InvalidGameError] before anything is applied or printed:
    the store, log included, is untouched (no step line, no snapshot), and
    the loop ends there with that error. *)
Theorem invalid_action_value_raises actions deck descs cm action_num ptr
    action_vec p v s :
  py_index actions action_num = Some action_vec ->
  nonzero_ne_30 action_vec = [p] ->
  action_vec !! p = Some v ->
  v < 0 \/ 30 < v ->
  trace_step actions deck descs cm action_num ptr s =
    (s, Err (InvalidGameError "Game data contains an invalid action value")) /\
  forall rest,
    trace_loop actions deck descs cm (action_num :: rest) ptr s =
      (s, Err (InvalidGameError "Game data contains an invalid action value")).
Proof.
  intros Hvec Hp Hv Hrange.
  assert (Hstep : trace_step actions deck descs cm action_num ptr s =
    (s, Err (InvalidGameError "Game data contains an invalid action value"))).
  { rewrite (trace_step_vec _ _ _ _ _ _ _ _ Hvec), Hp, Hv.
    destruct (Z.ltb_spec v 0); [done|].
    destruct (Z.ltb_spec 30 v); [done|lia]. }
  split; [done|]. intros rest. simpl. unfold bind. by rewrite Hstep.
Qed.

Lemma invalid_action_value_raises_witness :
  trace_step [[31; 30]] example_deck50 example_descriptions
             example_color_map 0 10 example_store
    = (example_store,
       Err (InvalidGameError "Game data contains an invalid action value")) /\
  forall rest,
    trace_loop [[31; 30]] example_deck50 example_descriptions
               example_color_map (0 :: rest) 10 example_store
      = (example_store,
         Err (InvalidGameError "Game data contains an invalid action value")).
Proof.
  apply (invalid_action_value_raises [[31; 30]] example_deck50
           example_descriptions example_color_map 0 10 [31; 30] 0%nat 31
           example_store eq_refl eq_refl eq_refl).
  right. lia.
Defined.

(** C9: a hint (code 10 to 29) changes neither the hands, nor the discard
    pile, nor the played pile, nor the draw pointer; the step only prints
    (or stops on the missing description).  Running the step again from
    the state it left gives that state again. *)
Theorem hint_leaves_game_state actions deck descs cm action_num ptr
    action_vec p v s :
  py_index actions action_num = Some action_vec ->
  nonzero_ne_30 action_vec = [p] ->
  action_vec !! p = Some v ->
  10 <= v <= 29 ->
  let step := trace_step actions deck descs cm action_num ptr in
  (forall action_text, py_index descs v = Some action_text ->
     step s =
       (Store (hands s) (discard_pile s) (played_pile s)
              (file s ++ [StepLine action_num p action_text; HintLine;
                          StateLines (hands s) (discard_pile s)
                                     (played_pile s)]),
        Ok ptr)) /\
  (py_index descs v = None -> step s = (s, Err IndexError)) /\
  game_state (step s).1 ptr = game_state s ptr /\
  game_state (step (step s).1).1 ptr = game_state (step s).1 ptr.
Proof.
  intros Hvec Hp Hv Hrange step.
  assert (Heq : forall s0, step s0 =
    match py_index descs v with
    | None => (s0, Err IndexError)
    | Some action_text =>
        (Store (hands s0) (discard_pile s0) (played_pile s0)
               (file s0 ++ [StepLine action_num p action_text; HintLine;
                            StateLines (hands s0) (discard_pile s0)
                                       (played_pile s0)]), Ok ptr)
    end).
  { intros s0. unfold step.
    rewrite (trace_step_vec _ _ _ _ _ _ _ _ Hvec), Hp, Hv.
    destruct (Z.ltb_spec v 0); [lia|].
    destruct (Z.ltb_spec 30 v); [lia|]. simpl.
    destruct (py_index descs v) as [action_text|]; [|done].
    destruct (Z.leb_spec v 4); [lia|]. rewrite andb_false_r.
    destruct (Z.leb_spec v 9); [lia|]. rewrite andb_false_r.
    destruct (Z.leb_spec 10 v); [|lia].
    destruct (Z.leb_spec v 29); [|lia]. simpl.
    cbv [bind print print_game_state ret]. simpl.
    by rewrite <- !app_assoc. }
  repeat split.
  - intros action_text Htext. rewrite Heq. by rewrite Htext.
  - intros Hnone. rewrite Heq. by rewrite Hnone.
  - rewrite Heq. by destruct (py_index descs v).
  - rewrite !Heq. by destruct (py_index descs v).
Qed.

Lemma hint_leaves_game_state_witness :
  let step := trace_step [[30; 17]] example_deck50 example_descriptions
                         example_color_map 0 10 in
  game_state (step example_store).1 10 = game_state example_store 10 /\
  game_state (step (step example_store).1).1 10 =
    game_state (step example_store).1 10.
Proof.
  intros step.
  destruct (hint_leaves_game_state [[30; 17]] example_deck50
              example_descriptions example_color_map 0 10 [30; 17] 1%nat 17
              example_store eq_refl eq_refl eq_refl ltac:(lia))
    as (_ & _ & Honce & Htwice).
  split; [exact Honce | exact Htwice].
Defined.

(** ** Initialization *)

Lemma py_slice_hand_length {A : Type} (l : list A) (k : nat) :
  length (py_slice l (Z.of_nat k * 5) ((Z.of_nat k + 1) * 5)) =
  (5 `min` (length l - 5 * k))%nat.
Proof.
  unfold py_slice.
  replace ((Z.of_nat k + 1) * 5 - Z.of_nat k * 5) with 5 by lia.
  rewrite length_take, length_drop. lia.
Qed.

Lemma render_cards_length cards cm out :
  render_cards cards cm = Ok out -> length out = length cards.
Proof.
  revert out. induction cards as [|c cards IH]; intros out; simpl.
  - by intros [= <-].
  - destruct (card_str c cm); [|done].
    destruct (render_cards cards cm) as [rest|]; [|done].
    intros [= <-]. simpl. by rewrite (IH rest).
Qed.

Lemma render_cards_known cards cm :
  (forall c r, (c, r) ∈ cards -> is_Some (cm !! c)) ->
  exists out, render_cards cards cm = Ok out.
Proof.
  induction cards as [|[c r] cards IH]; intros Hknown; simpl.
  - by eexists.
  - destruct (Hknown c r) as [name Hname]; [by left|]. rewrite Hname.
    destruct IH as [rest ->]; [|by eexists].
    intros c' r' Hin. apply (Hknown c' r'). by right.
Qed.

Lemma py_slice_subseteq {A : Type} (l : list A) (a b : Z) (x : A) :
  x ∈ py_slice l a b -> x ∈ l.
Proof.
  unfold py_slice. intros Hx.
  apply elem_of_take in Hx as (i & Hx & _).
  rewrite lookup_drop in Hx. by eapply list_elem_of_lookup_2.
Qed.

(** The hands dealt to the players [a], [a + 1], ..., [a + m - 1]. *)
Lemma deal_hands_seqZ deck cm (m a : nat) :
  (forall c r, (c, r) ∈ deck -> is_Some (cm !! c)) ->
  exists hs, deal_hands deck (seqZ (Z.of_nat a) (Z.of_nat m)) cm = Ok hs /\
    length hs = m /\
    forall i hand, hs !! i = Some hand ->
      length hand = (5 `min` (length deck - 5 * (a + i)))%nat.
Proof.
  intros Hknown. revert a. induction m as [|m IH]; intros a.
  - exists []. split; [done|]. split; [done|].
    intros i hand. by rewrite lookup_nil.
  - rewrite seqZ_cons by lia. cbn [deal_hands].
    destruct (render_cards_known
                (py_slice deck (Z.of_nat a * 5) ((Z.of_nat a + 1) * 5)) cm)
      as [hand0 Hhand0].
    { intros c r Hin. apply (Hknown c r). by eapply py_slice_subseteq. }
    rewrite Hhand0.
    replace (Z.succ (Z.of_nat a)) with (Z.of_nat (S a)) by lia.
    replace (Z.pred (Z.of_nat (S m))) with (Z.of_nat m) by lia.
    destruct (IH (S a)) as (hs & -> & Hlen & Hhands).
    exists (hand0 :: hs). split; [done|]. split; [simpl; by rewrite Hlen|].
    intros [|i] hand Hi; simpl in Hi.
    + injection Hi as <-. rewrite (render_cards_length _ _ _ Hhand0).
      rewrite py_slice_hand_length. lia.
    + rewrite (Hhands i hand Hi). lia.
Qed.

Lemma py_slice_hand {A : Type} (l : list A) (k : nat) :
  py_slice l (Z.of_nat k * 5) ((Z.of_nat k + 1) * 5) = take 5 (drop (5 * k) l).
Proof.
  unfold py_slice.
  replace ((Z.of_nat k + 1) * 5 - Z.of_nat k * 5) with 5 by lia.
  replace (Z.to_nat (Z.of_nat k * 5)) with (5 * k)%nat by lia. done.
Qed.

Lemma render_cards_Forall2 cards cm out :
  render_cards cards cm = Ok out ->
  Forall2 (fun row c => card_str row cm = Ok c) cards out.
Proof.
  revert out. induction cards as [|row cards IH]; intros out; simpl.
  - intros [= <-]. constructor.
  - destruct (card_str row cm) as [c|] eqn:Hc; [|done].
    destruct (render_cards cards cm) as [rest|]; [|done].
    intros [= <-]. constructor; [done | by apply IH].
Qed.

(** The hand of the player [a + i] is the rendered slice of the deck. *)
Lemma deal_hands_lookup deck cm (m a : nat) hs i hand :
  deal_hands deck (seqZ (Z.of_nat a) (Z.of_nat m)) cm = Ok hs ->
  hs !! i = Some hand ->
  render_cards (take 5 (drop (5 * (a + i)) deck)) cm = Ok hand.
Proof.
  revert a hs i. induction m as [|m IH]; intros a hs i.
  - intros [= <-]. by rewrite lookup_nil.
  - rewrite seqZ_cons by lia. cbn [deal_hands].
    rewrite py_slice_hand.
    destruct (render_cards (take 5 (drop (5 * a) deck)) cm) as [hand0|]
      eqn:Hhand0; [|done].
    replace (Z.succ (Z.of_nat a)) with (Z.of_nat (S a)) by lia.
    replace (Z.pred (Z.of_nat (S m))) with (Z.of_nat m) by lia.
    destruct (deal_hands deck _ cm) as [hs0|] eqn:Hdeal; [|done].
    intros [= <-]. destruct i as [|i]; simpl.
    + intros [= <-]. by replace (a + 0)%nat with a by lia.
    + intros Hi. replace (a + S i)%nat with (S a + i)%nat by lia.
      by apply (IH (S a) hs0 i).
Qed.

(** C2, as the code has it: initialization never looks at the length of
    the deck.  Whenever every color of the deck has a name it succeeds,
    with one hand per player, hand [i] holding, in order, the rendered
    cards that exist at the deck positions [5i .. 5i+4] (fewer than five,
    or none, where the deck ends), an empty discard pile, all stacks at 0
    and the draw pointer at [5 * num_players]; when [5 * num_players] does
    not exceed the deck length every hand has five cards. *)
Theorem initialize_deals_what_exists deck num_players cm :
  (forall c r, (c, r) ∈ deck -> is_Some (cm !! c)) ->
  exists hs,
    initialize_game_state deck num_players cm =
      Ok (hs, [], initial_played_pile cm, num_players * 5) /\
    length hs = Z.to_nat num_players /\
    (forall i hand, hs !! i = Some hand ->
       Forall2 (fun row c => card_str row cm = Ok c)
               (take 5 (drop (5 * i) deck)) hand) /\
    (forall i hand, hs !! i = Some hand ->
       length hand = (5 `min` (length deck - 5 * i))%nat) /\
    (5 * num_players <= Z.of_nat (length deck) ->
     forall hand, hand ∈ hs -> length hand = 5%nat).
Proof.
  intros Hknown. unfold initialize_game_state, range.
  destruct (deal_hands_seqZ deck cm (Z.to_nat num_players) 0 Hknown)
    as (hs & Hdeal & Hlen & Hhands).
  assert (Hrange : seqZ 0 num_players =
                   seqZ (Z.of_nat 0) (Z.of_nat (Z.to_nat num_players))).
  { destruct (Z.le_gt_cases 0 num_players).
    - by rewrite Z2Nat.id.
    - unfold seqZ. by replace (Z.to_nat num_players) with 0%nat by lia. }
  rewrite Hrange, Hdeal. exists hs.
  split; [done|]. split; [done|]. split; [|split].
  - intros i hand Hi. apply render_cards_Forall2.
    by apply (deal_hands_lookup deck cm (Z.to_nat num_players) 0 hs i hand).
  - intros i hand Hi. by rewrite (Hhands i hand Hi).
  - intros Hfull hand Hin. apply list_elem_of_lookup in Hin as [i Hi].
    pose proof (lookup_lt_Some _ _ _ Hi). rewrite (Hhands i hand Hi). lia.
Qed.

Lemma initialize_deals_what_exists_witness :
  exists hs,
    initialize_game_state example_deck10 2 example_color_map =
      Ok (hs, [], initial_played_pile example_color_map, 2 * 5) /\
    length hs = Z.to_nat 2 /\
    (forall i hand, hs !! i = Some hand ->
       Forall2 (fun row c => card_str row example_color_map = Ok c)
               (take 5 (drop (5 * i) example_deck10)) hand) /\
    (forall i hand, hs !! i = Some hand ->
       length hand = (5 `min` (length example_deck10 - 5 * i))%nat) /\
    (5 * 2 <= Z.of_nat (length example_deck10) ->
     forall hand, hand ∈ hs -> length hand = 5%nat).
Proof.
  apply (initialize_deals_what_exists example_deck10 2 example_color_map).
  intros c r Hin.
  assert (Hc : c = 0 \/ c = 1).
  { unfold example_deck10 in Hin.
    repeat (apply elem_of_cons in Hin as [[= -> ->]|Hin]; [lia|]).
    by apply elem_of_nil in Hin. }
  destruct Hc as [-> | ->]; by eexists.
Defined.

(** C2 as stated fails on the code: one player and a three-card deck
    ([5 * 1 > 3]) initialize without any error, the hand holding the three
    cards and the draw pointer standing at 5, past the end of the deck. *)
Lemma short_deck_initializes :
  Z.of_nat (length [(0, 0); (0, 1); (0, 2)]) < 5 * 1 /\
  initialize_game_state [(0, 0); (0, 1); (0, 2)] 1 example_color_map =
    Ok ([[Card "R" 1; Card "R" 2; Card "R" 3]], [],
        initial_played_pile example_color_map, 5).
Proof. split; [simpl; lia | vm_compute; reflexivity]. Qed.

(** ** Relations every step respects *)

Section StepRelation.
Variable game_deck : list card_tuple.
Variable color_map : gmap Z string.
Variable R : store -> store -> Prop.
Hypothesis R_refl : forall s, R s s.
Hypothesis R_trans : forall s1 s2 s3, R s1 s2 -> R s2 s3 -> R s1 s3.
Hypothesis R_print : forall l s, R s (print l s).1.
Hypothesis R_discard : forall v p ptr s,
  R s (handle_discard v p game_deck ptr color_map s).1.
Hypothesis R_play : forall v p ptr s,
  R s (handle_play v p game_deck ptr color_map s).1.

Lemma trace_step_rel actions descs action_num ptr s :
  R s (trace_step actions game_deck descs color_map action_num ptr s).1.
Proof.
  destruct (py_index actions action_num) as [action_vec|] eqn:Hvec.
  2: { unfold trace_step. unfold bind at 1, lift at 1.
       rewrite Hvec. apply R_refl. }
  rewrite (trace_step_vec _ _ _ _ _ _ _ _ Hvec).
  destruct (nonzero_ne_30 action_vec) as [|p [|q rest]]; try apply R_refl.
  destruct (action_vec !! p) as [v|]; [|apply R_refl].
  destruct ((v <? 0) || (30 <? v)); [apply R_refl|].
  destruct (py_index descs v) as [action_text|]; [|apply R_refl].
  eapply R_trans; [apply (R_print (StepLine action_num p action_text))|].
  set (s1 := (print (StepLine action_num p action_text) s).1).
  change (Store (hands s) (discard_pile s) (played_pile s)
                (file s ++ [StepLine action_num p action_text])) with s1.
  assert (Hdispatch : forall (m : M Z), R s1 (m s1).1 ->
    R s1 ((let! ptr' := m in print_game_state ;; ret ptr') s1).1).
  { intros m Hm. unfold bind at 1.
    destruct (m s1) as [s2 [ptr'|e]]; [|done].
    eapply R_trans; [exact Hm|]. cbv [bind print_game_state ret].
    apply (R_print (StateLines (hands s2) (discard_pile s2)
                               (played_pile s2))). }
  apply Hdispatch.
  destruct ((0 <=? v) && (v <=? 4)); [apply R_discard|].
  destruct ((5 <=? v) && (v <=? 9)); [apply R_play|].
  destruct ((10 <=? v) && (v <=? 29)); [|apply R_refl].
  apply (R_print HintLine).
Qed.

Lemma trace_loop_rel actions descs steps ptr s :
  R s (trace_loop actions game_deck descs color_map steps ptr s).1.
Proof.
  revert ptr s. induction steps as [|action_num rest IH]; intros ptr s.
  - apply R_refl.
  - simpl. unfold bind.
    pose proof (trace_step_rel actions descs action_num ptr s) as Hstep.
    destruct (trace_step actions game_deck descs color_map action_num ptr s)
      as [s1 [ptr1|e]]; [|done].
    eapply R_trans; [exact Hstep | apply IH].
Qed.
End StepRelation.

(** ** The played pile *)




Lemma draw_new_card_played_pile p deck ptr cm s :
  played_pile (draw_new_card p deck ptr cm s).1 = played_pile s.
Proof.
  rewrite draw_new_card_eq.
  destruct (ptr <? 50); [|done].
  destruct (py_index deck ptr) as [row|]; [|done].
  destruct (card_str row cm); [|done].
  by destruct (hands s !! p).
Qed.

Lemma handle_discard_played_pile v p deck ptr cm s :
  played_pile (handle_discard v p deck ptr cm s).1 = played_pile s.
Proof.
  rewrite handle_discard_eq.
  destruct (hands s !! p) as [hand|]; [|done].
  destruct (Z.of_nat (length hand) <=? v); [done|].
  destruct (py_pop hand v) as [[c hand']|]; [|done].
  by rewrite draw_new_card_played_pile.
Qed.



(** *** The cards of a replay have their stacks *)

Lemma card_str_name row cm c :
  card_str row cm = Ok c -> exists color, cm !! color = Some (color_name c).
Proof.
  destruct row as [color rank]. simpl.
  destruct (cm !! color) as [name|] eqn:Hname; [|done].
  intros [= <-]. by exists color.
Qed.

Lemma render_cards_names cards cm hand c :
  render_cards cards cm = Ok hand -> c ∈ hand ->
  exists color, cm !! color = Some (color_name c).
Proof.
  revert hand. induction cards as [|row cards IH]; intros hand; simpl.
  - intros [= <-] Hc. by apply elem_of_nil in Hc.
  - destruct (card_str row cm) as [c0|] eqn:Hc0; [|done].
    destruct (render_cards cards cm) as [rest|]; [|done].
    intros [= <-] Hc. apply elem_of_cons in Hc as [-> | Hc].
    + by eapply card_str_name.
    + by apply (IH rest).
Qed.

Lemma deal_hands_names deck players cm hs hand c :
  deal_hands deck players cm = Ok hs -> hand ∈ hs -> c ∈ hand ->
  exists color, cm !! color = Some (color_name c).
Proof.
  revert hs. induction players as [|i players IH]; intros hs; simpl.
  - intros [= <-] Hhand. by apply elem_of_nil in Hhand.
  - destruct (render_cards _ cm) as [hand0|] eqn:Hhand0; [|done].
    destruct (deal_hands deck players cm) as [hs0|]; [|done].
    intros [= <-] Hhand Hc. apply elem_of_cons in Hhand as [-> | Hhand].
    + by eapply render_cards_names.
    + by apply (IH hs0).
Qed.

Lemma initial_played_pile_covers cm color name :
  cm !! color = Some name -> initial_played_pile cm !! name = Some 0.
Proof.
  intros Hname. unfold initial_played_pile.
  destruct (list_to_map _ !! name) as [h|] eqn:Hh.
  - apply elem_of_list_to_map_2 in Hh.
    apply list_elem_of_fmap in Hh as ([k n] & [= _ ->] & _). done.
  - apply not_elem_of_list_to_map_2 in Hh. exfalso. apply Hh.
    rewrite <- list_fmap_compose.
    apply list_elem_of_fmap. exists (color, name). split; [done|].
    by apply elem_of_map_to_list.
Qed.

Lemma elem_of_insert_inv {A : Type} (l : list A) i x y :
  y ∈ <[i := x]> l -> y = x \/ y ∈ l.
Proof.
  intros Hy. apply list_elem_of_lookup in Hy as [j Hj].
  apply list_lookup_insert_Some in Hj as [(-> & -> & _) | (_ & Hj)].
  - by left.
  - right. by eapply list_elem_of_lookup_2.
Qed.

Lemma py_pop_elem_of {A : Type} (l l' : list A) i x y :
  py_pop l i = Some (x, l') -> y ∈ l' -> y ∈ l.
Proof.
  unfold py_pop.
  destruct (_ || _); [done|].
  destruct (l !! _); [|done].
  intros [= <- <-]. apply list_elem_of_delete_inv.
Qed.

Lemma draw_new_card_stacks_cover p deck ptr cm s :
  stacks_cover cm s -> stacks_cover cm (draw_new_card p deck ptr cm s).1.
Proof.
  intros [Hhands Hpile]. rewrite draw_new_card_eq.
  destruct (ptr <? 50); [|done].
  destruct (py_index deck ptr) as [row|]; [|done].
  destruct (card_str row cm) as [new_card|] eqn:Hnew; [|done].
  destruct (hands s !! p) as [hand|] eqn:Hhand; [|done].
  split; [|done]. simpl. intros hand0 c Hhand0 Hc.
  apply elem_of_insert_inv in Hhand0 as [-> | Hhand0]; [|by eapply Hhands].
  apply elem_of_app in Hc as [Hc | Hc].
  - eapply Hhands; [|done]. by eapply list_elem_of_lookup_2.
  - apply list_elem_of_singleton in Hc as ->. by eapply card_str_name.
Qed.

Lemma handle_discard_stacks_cover v p deck ptr cm s :
  stacks_cover cm s -> stacks_cover cm (handle_discard v p deck ptr cm s).1.
Proof.
  intros [Hhands Hpile]. rewrite handle_discard_eq.
  destruct (hands s !! p) as [hand|] eqn:Hhand; [|done].
  destruct (Z.of_nat (length hand) <=? v); [done|].
  destruct (py_pop hand v) as [[c hand']|] eqn:Hpop; [|done].
  apply draw_new_card_stacks_cover. split; [|done]. simpl.
  intros hand0 c0 Hhand0 Hc0.
  apply elem_of_insert_inv in Hhand0 as [-> | Hhand0]; [|by eapply Hhands].
  eapply Hhands; [by eapply list_elem_of_lookup_2|].
  by eapply py_pop_elem_of.
Qed.

Lemma handle_play_stacks_cover v p deck ptr cm s :
  stacks_cover cm s -> stacks_cover cm (handle_play v p deck ptr cm s).1.
Proof.
  intros [Hhands Hpile]. rewrite handle_play_eq.
  destruct (hands s !! p) as [hand|] eqn:Hhand; [|done].
  destruct (Z.of_nat (length hand) <=? v - 5); [done|].
  destruct (py_pop hand (v - 5)) as [[c hand']|] eqn:Hpop; [|done].
  assert (Hpopped : forall hand0 c0,
    hand0 ∈ <[p := hand']> (hands s) -> c0 ∈ hand0 ->
    exists color, cm !! color = Some (color_name c0)).
  { intros hand0 c0 Hhand0 Hc0.
    apply elem_of_insert_inv in Hhand0 as [-> | Hhand0]; [|by eapply Hhands].
    eapply Hhands; [by eapply list_elem_of_lookup_2|].
    by eapply py_pop_elem_of. }
  simpl. destruct (card_split c) as [[color rank]|]; [|done].
  destruct (played_pile s !! color) as [height|]; [|done].
  apply draw_new_card_stacks_cover. split; [done|]. simpl.
  intros color0 name Hname. destruct (height <? rank); [|by eapply Hpile].
  destruct (decide (color = name)) as [->|Hne].
  - rewrite lookup_insert_eq. by eexists.
  - rewrite lookup_insert_ne by done. by eapply Hpile.
Qed.

Lemma replay_stacks_cover game_idx actions deck k num_players descs cm file0
    s ptr :
  replay game_idx actions deck k num_players descs cm file0 = (s, Ok ptr) ->
  stacks_cover cm s.
Proof.
  unfold replay, initialize_game_state.
  destruct (deal_hands deck (range num_players) cm) as [hs|] eqn:Hdeal;
    [|done].
  unfold bind at 1. simpl. intros Hloop.
  pose proof (trace_loop_rel deck cm
    (fun s1 s2 => stacks_cover cm s1 -> stacks_cover cm s2)) as Hrel.
  match type of Hloop with
  | ?run = _ => replace s with run.1 by (by rewrite Hloop)
  end.
  eapply Hrel; clear Hrel.
  - done.
  - intros s1 s2 s3 H12 H23 H1. by apply H23, H12.
  - done.
  - intros v p ptr1 s1. apply handle_discard_stacks_cover.
  - intros v p ptr1 s1. apply handle_play_stacks_cover.
  - split; simpl.
    + intros hand c. by eapply deal_hands_names.
    + intros color name Hname. eexists.
      by eapply initial_played_pile_covers.
Qed.


Lemma example_names_are_tokens : names_are_tokens example_color_map.
Proof.
  intros color name Hname.
  apply elem_of_map_to_list in Hname.
  assert (Hlist : map_to_list example_color_map =
    [(3, "W"); (4, "B"); (2, "G"); (1, "Y"); (0, "R")]%string)
    by (vm_compute; reflexivity).
  rewrite Hlist in Hname.
  repeat (apply elem_of_cons in Hname as [[= -> ->]|Hname]; [done|]).
  by apply elem_of_nil in Hname.
Qed.



(** ** Conservation of the cards *)

Lemma total_cards_insert (hs : list (list card)) p hand hand' :
  hs !! p = Some hand ->
  (total_cards (<[p := hand']> hs) + length hand =
   total_cards hs + length hand')%nat.
Proof.
  revert p. induction hs as [|h hs IH]; intros [|p] Hp; simpl in *; try done.
  - injection Hp as ->. lia.
  - specialize (IH p Hp). lia.
Qed.

Lemma cards_played_app f l :
  cards_played (f ++ [l]) =
  (cards_played f + if is_played_line l then 1 else 0)%nat.
Proof.
  unfold cards_played. rewrite filter_app, length_app.
  rewrite filter_cons, filter_nil.
  destruct (is_played_line l); case_decide; simpl; done || lia.
Qed.

Lemma undrawn_succ deck ptr :
  0 <= ptr < Z.of_nat (length deck) ->
  undrawn deck ptr = S (undrawn deck (ptr + 1)).
Proof. intros Hptr. unfold undrawn. rewrite !length_drop. lia. Qed.

(** What a draw that returns has done. *)
Lemma draw_new_card_balance p deck ptr cm s s' ptr' :
  draw_new_card p deck ptr cm s = (s', Ok ptr') ->
  0 <= ptr \/ hands s = [] ->
  (held s' + undrawn deck ptr' = held s + undrawn deck ptr)%nat /\
  cards_played (file s') = cards_played (file s) /\
  (0 <= ptr' \/ hands s' = []).
Proof.
  rewrite draw_new_card_eq. destruct (Z.ltb_spec ptr 50).
  2: { intros [= <- <-]. done. }
  destruct (py_index deck ptr) as [row|] eqn:Hrow; [|done].
  destruct (card_str row cm) as [new_card|]; [|done].
  destruct (hands s !! p) as [hand|] eqn:Hhand; [|done].
  intros [= <- <-] Hptr.
  assert (0 <= ptr) as Hpos.
  { destruct Hptr as [?|Hnil]; [done|]. by rewrite Hnil in Hhand. }
  apply py_index_Some_bounds in Hrow.
  unfold held. simpl. rewrite cards_played_app. simpl.
  pose proof (total_cards_insert (hands s) p hand (hand ++ [new_card]) Hhand)
    as Htotal.
  rewrite length_app in Htotal. simpl in Htotal.
  rewrite (undrawn_succ deck ptr) by lia.
  split; [lia|]. split; [lia|]. left. lia.
Qed.

Lemma handle_discard_balance v p deck ptr cm s s' ptr' :
  handle_discard v p deck ptr cm s = (s', Ok ptr') ->
  0 <= ptr \/ hands s = [] ->
  (held s' + undrawn deck ptr' = held s + undrawn deck ptr)%nat /\
  (cards_played (file s) <= cards_played (file s'))%nat /\
  (0 <= ptr' \/ hands s' = []).
Proof.
  rewrite handle_discard_eq.
  destruct (hands s !! p) as [hand|] eqn:Hhand; [|done].
  destruct (Z.of_nat (length hand) <=? v); [done|].
  destruct (py_pop hand v) as [[c hand']|] eqn:Hpop; [|done].
  intros Hdraw Hptr.
  apply draw_new_card_balance in Hdraw as (Hheld & Hplayed & Hptr').
  2: { simpl. destruct Hptr as [?|Hnil]; [by left|].
       by rewrite Hnil in Hhand. }
  revert Hheld Hplayed. unfold held. simpl.
  rewrite cards_played_app, length_app. simpl.
  pose proof (total_cards_insert (hands s) p hand hand' Hhand) as Htotal.
  apply py_pop_length in Hpop.
  intros Hheld Hplayed. split; [lia|]. split; [lia|done].
Qed.

Lemma handle_play_balance v p deck ptr cm s s' ptr' :
  handle_play v p deck ptr cm s = (s', Ok ptr') ->
  0 <= ptr \/ hands s = [] ->
  (held s' + undrawn deck ptr' = held s + undrawn deck ptr)%nat /\
  (cards_played (file s) <= cards_played (file s'))%nat /\
  (0 <= ptr' \/ hands s' = []).
Proof.
  rewrite handle_play_eq.
  destruct (hands s !! p) as [hand|] eqn:Hhand; [|done].
  destruct (Z.of_nat (length hand) <=? v - 5); [done|].
  destruct (py_pop hand (v - 5)) as [[c hand']|] eqn:Hpop; [|done].
  simpl. destruct (card_split c) as [[color rank]|]; [|done].
  destruct (played_pile s !! color) as [height|]; [|done].
  intros Hdraw Hptr.
  apply draw_new_card_balance in Hdraw as (Hheld & Hplayed & Hptr').
  2: { simpl. destruct Hptr as [?|Hnil]; [by left|].
       by rewrite Hnil in Hhand. }
  revert Hheld Hplayed. unfold held. simpl.
  rewrite cards_played_app. simpl.
  pose proof (total_cards_insert (hands s) p hand hand' Hhand) as Htotal.
  apply py_pop_length in Hpop.
  intros Hheld Hplayed. split; [lia|]. split; [lia|done].
Qed.

Lemma print_conserved deck n0 l s ptr :
  is_played_line l = false ->
  conserved deck n0 s ptr -> conserved deck n0 (print l s).1 ptr.
Proof.
  intros Hl (Hheld & Hplayed & Hptr). unfold conserved, held in *. simpl.
  rewrite cards_played_app, Hl. split; [lia|]. split; [lia|done].
Qed.

Lemma trace_step_conserved actions deck descs cm n0 action_num ptr s s' ptr' :
  trace_step actions deck descs cm action_num ptr s = (s', Ok ptr') ->
  conserved deck n0 s ptr -> conserved deck n0 s' ptr'.
Proof.
  destruct (py_index actions action_num) as [action_vec|] eqn:Hvec.
  2: { unfold trace_step. unfold bind at 1, lift at 1. by rewrite Hvec. }
  rewrite (trace_step_vec _ _ _ _ _ _ _ _ Hvec).
  destruct (nonzero_ne_30 action_vec) as [|p [|q rest]]; [|..|done].
  { by intros [= <- <-]. }
  destruct (action_vec !! p) as [v|]; [|done].
  destruct ((v <? 0) || (30 <? v)); [done|].
  destruct (py_index descs v) as [action_text|]; [|done].
  intros Hrun Hs.
  apply (print_conserved _ _ (StepLine action_num p action_text)) in Hs;
    [|done].
  set (s1 := (print (StepLine action_num p action_text) s).1) in *.
  change (Store (hands s) (discard_pile s) (played_pile s)
                (file s ++ [StepLine action_num p action_text]))
    with s1 in Hrun.
  assert (Hdispatch : forall (m : M Z),
    (forall s2 ptr2, m s1 = (s2, Ok ptr2) -> conserved deck n0 s2 ptr2) ->
    (let! ptr2 := m in print_game_state ;; ret ptr2) s1 = (s', Ok ptr') ->
    conserved deck n0 s' ptr').
  { intros m Hm. unfold bind at 1.
    destruct (m s1) as [s2 [ptr2|e]]; [|done].
    cbv [bind print_game_state ret]. intros [= <- <-].
    apply (print_conserved _ _ (StateLines (hands s2) (discard_pile s2)
                                           (played_pile s2))); [done|].
    by apply Hm. }
  apply (Hdispatch _) in Hrun; [done|]. clear Hrun Hdispatch.
  destruct Hs as (Hheld & Hplayed & Hptr).
  intros s2 ptr2.
  destruct ((0 <=? v) && (v <=? 4)).
  { intros Hd. apply (handle_discard_balance _ _ deck) in Hd as (? & ? & ?);
      [|done]. split; [lia|]. split; [lia|done]. }
  destruct ((5 <=? v) && (v <=? 9)).
  { intros Hd. apply (handle_play_balance _ _ deck) in Hd as (? & ? & ?);
      [|done]. split; [lia|]. split; [lia|done]. }
  destruct ((10 <=? v) && (v <=? 29)).
  - cbv [bind ret]. simpl. intros [= <- <-].
    by apply (print_conserved _ _ HintLine s1).
  - by intros [= <- <-].
Qed.

Lemma trace_loop_conserved actions deck descs cm n0 steps ptr s s' ptr' :
  trace_loop actions deck descs cm steps ptr s = (s', Ok ptr') ->
  conserved deck n0 s ptr -> conserved deck n0 s' ptr'.
Proof.
  revert ptr s. induction steps as [|action_num rest IH]; intros ptr s.
  - by intros [= <- <-].
  - simpl. unfold bind.
    destruct (trace_step actions deck descs cm action_num ptr s)
      as [s1 [ptr1|e]] eqn:Hstep; [|done].
    intros Hrest Hs. apply (IH _ _ Hrest).
    by eapply trace_step_conserved.
Qed.

(** The hands dealt to the players [a .. a + m - 1] hold the deck cards at
    the positions [5a .. 5(a + m) - 1] that exist. *)
Lemma deal_hands_total deck cm (m a : nat) hs :
  deal_hands deck (seqZ (Z.of_nat a) (Z.of_nat m)) cm = Ok hs ->
  total_cards hs = length (take (5 * m) (drop (5 * a) deck)).
Proof.
  revert a hs. induction m as [|m IH]; intros a hs.
  - intros [= <-]. done.
  - rewrite seqZ_cons by lia. cbn [deal_hands].
    destruct (render_cards _ cm) as [hand0|] eqn:Hhand0; [|done].
    replace (Z.succ (Z.of_nat a)) with (Z.of_nat (S a)) by lia.
    replace (Z.pred (Z.of_nat (S m))) with (Z.of_nat m) by lia.
    destruct (deal_hands deck _ cm) as [hs0|] eqn:Hdeal; [|done].
    intros [= <-]. cbn [total_cards].
    rewrite (IH (S a) hs0 Hdeal), (render_cards_length _ _ _ Hhand0).
    rewrite py_slice_hand_length, !length_take, !length_drop. lia.
Qed.

Lemma initialize_conserved deck num_players cm hs dp pp ptr file0 :
  initialize_game_state deck num_players cm = Ok (hs, dp, pp, ptr) ->
  conserved deck (cards_played file0) (Store hs dp pp file0) ptr.
Proof.
  unfold initialize_game_state, range.
  destruct (deal_hands deck (seqZ 0 num_players) cm) as [hs0|] eqn:Hdeal;
    [|done].
  intros [= <- <- <- <-]. unfold conserved, held, undrawn. simpl.
  destruct (Z.le_gt_cases 0 num_players) as [Hn|Hn].
  - replace (seqZ 0 num_players)
      with (seqZ (Z.of_nat 0) (Z.of_nat (Z.to_nat num_players))) in Hdeal
      by (by rewrite Z2Nat.id).
    rewrite (deal_hands_total _ _ _ _ _ Hdeal).
    rewrite length_take, !length_drop.
    split; [lia|]. split; [lia|]. left. lia.
  - unfold seqZ in Hdeal.
    replace (Z.to_nat num_players) with 0%nat in Hdeal by lia.
    simpl in Hdeal. injection Hdeal as <-. simpl.
    replace (Z.to_nat (num_players * 5)) with 0%nat by lia.
    rewrite drop_0. split; [lia|]. split; [lia|]. by right.
Qed.

(** C5: in every state the replay reaches without an exception, after any
    number [k] of steps, the cards in the hands, the discarded cards, the
    cards played since the replay began and the deck cards from the draw
    pointer on add up to the length of the deck. *)
Theorem cards_are_conserved game_idx actions deck k num_players descs cm
    file0 s ptr :
  replay game_idx actions deck k num_players descs cm file0 = (s, Ok ptr) ->
  (total_cards (hands s) + length (discard_pile s) +
   (cards_played (file s) - cards_played file0) + undrawn deck ptr =
   length deck)%nat.
Proof.
  unfold replay.
  destruct (initialize_game_state deck num_players cm)
    as [[[[hs dp] pp] ptr0]|] eqn:Hinit; [|done].
  unfold bind at 1. intros Hloop.
  apply (trace_loop_conserved _ _ _ _ (cards_played file0)) in Hloop
    as (Hheld & Hplayed & _).
  - unfold held in Hheld. lia.
  - apply (print_conserved _ _ (HeaderLine game_idx)); [done|].
    by eapply initialize_conserved.
Qed.

Lemma cards_are_conserved_witness :
  let r := replay 0 [[3; 30]; [30; 5]; [30; 30]; [12; 30]; [30; 9]]
                  example_deck50 5 2 example_descriptions example_color_map
                  [] in
  r.2 = Ok 13 /\
  (total_cards (hands r.1) + length (discard_pile r.1) +
   (cards_played (file r.1) - cards_played []) + undrawn example_deck50 13 =
   length example_deck50)%nat.
Proof.
  intros r. split; [vm_compute; reflexivity|].
  apply (cards_are_conserved 0 [[3; 30]; [30; 5]; [30; 30]; [12; 30]; [30; 9]]
           example_deck50 5 2 example_descriptions example_color_map [] r.1 13).
  vm_compute. reflexivity.
Defined.

(** ** The batch driver *)

(** What [game_{i+1}.txt] holds once the [try] of game [i] is over and its
    exception, if any, was an [InvalidGameError]. *)
Lemma trace_to_log_caught ds descs cm i :
  (forall e, (try_body ds descs cm i).2 = Err e ->
     exists msg, e = InvalidGameError msg) ->
  (trace_to_log ds descs cm i).2 = None.
Proof.
  intros Hkind. unfold trace_to_log.
  destruct (try_body ds descs cm i) as [written [[]|e]]; [done|].
  destruct (Hkind e eq_refl) as [msg ->]. done.
Qed.

Lemma main_loop_all_caught ds descs cm (m a : nat) logs :
  (forall i, Z.of_nat a <= i < Z.of_nat a + Z.of_nat m ->
     (trace_to_log ds descs cm i).2 = None) ->
  exists logs',
    main_loop ds descs cm (seqZ (Z.of_nat a) (Z.of_nat m)) logs
      = (logs', None) /\
    (forall i, Z.of_nat a <= i < Z.of_nat a + Z.of_nat m ->
       logs' !! (i + 1) = Some (trace_to_log ds descs cm i).1) /\
    (forall j, j < Z.of_nat a + 1 -> logs' !! j = logs !! j).
Proof.
  revert a logs. induction m as [|m IH]; intros a logs Hcaught.
  - exists logs. split; [done|]. split; [|done]. intros i Hi. lia.
  - rewrite seqZ_cons by lia. cbn [main_loop].
    pose proof (Hcaught (Z.of_nat a) ltac:(lia)) as Hfirst.
    destruct (trace_to_log ds descs cm (Z.of_nat a)) as [written escaped]
      eqn:Hlog.
    simpl in Hfirst. subst escaped.
    replace (Z.succ (Z.of_nat a)) with (Z.of_nat (S a)) by lia.
    replace (Z.pred (Z.of_nat (S m))) with (Z.of_nat m) by lia.
    destruct (IH (S a) (<[Z.of_nat a + 1 := written]> logs))
      as (logs' & Hrun & Hnew & Hold).
    { intros i Hi. apply Hcaught. lia. }
    exists logs'. split; [done|]. split.
    + intros i Hi. destruct (decide (i = Z.of_nat a)) as [->|Hne].
      * rewrite Hold by lia. rewrite lookup_insert_eq. by rewrite Hlog.
      * apply Hnew. lia.
    + intros j Hj. rewrite Hold by lia. apply lookup_insert_ne. lia.
Qed.

(** C3, as the code has it: [main] catches [InvalidGameError] and nothing
    else.  When [InvalidGameError] is the only exception the games of the
    batch raise, every game is processed, none stops the run, and the log
    of each holds what its replay printed, closed by the error line when
    the replay failed. *)
Theorem invalid_game_errors_do_not_stop_the_batch ds descs cm logs :
  (forall i e, 0 <= i < Z.of_nat (length (ds_actions ds)) ->
     (try_body ds descs cm i).2 = Err e ->
     exists msg, e = InvalidGameError msg) ->
  exists logs',
    main ds descs cm logs = (logs', None) /\
    forall i, 0 <= i < Z.of_nat (length (ds_actions ds)) ->
      exists written r,
        try_body ds descs cm i = (written, r) /\
        logs' !! (i + 1) =
          Some (match r with
                | Err (InvalidGameError msg) => written ++ [ErrorLine i msg]
                | _ => written
                end).
Proof.
  intros Hkind. unfold main, range.
  destruct (main_loop_all_caught ds descs cm (length (ds_actions ds)) 0 logs)
    as (logs' & Hrun & Hnew & _).
  { intros i Hi. apply trace_to_log_caught. intros e. apply Hkind. lia. }
  exists logs'. split; [exact Hrun|].
  intros i Hi. rewrite Hnew by lia.
  pose proof (Hkind i) as Hi_kind. unfold trace_to_log.
  destruct (try_body ds descs cm i) as [written r].
  exists written, r. split; [done|].
  destruct r as [[]|e]; [done|].
  destruct (Hi_kind e ltac:(lia) eq_refl) as [msg ->]. done.
Qed.

Lemma invalid_game_errors_do_not_stop_the_batch_witness :
  exists logs',
    main example_invalid_value example_descriptions example_color_map ∅
      = (logs', None) /\
    forall i,
      0 <= i < Z.of_nat (length (ds_actions example_invalid_value)) ->
      exists written r,
        try_body example_invalid_value example_descriptions
                 example_color_map i = (written, r) /\
        logs' !! (i + 1) =
          Some (match r with
                | Err (InvalidGameError msg) => written ++ [ErrorLine i msg]
                | _ => written
                end).
Proof.
  apply (invalid_game_errors_do_not_stop_the_batch example_invalid_value
           example_descriptions example_color_map ∅).
  intros i e Hi. simpl in Hi.
  assert (Hcases : i = 0 \/ i = 1) by lia.
  destruct Hcases as [-> | ->]; vm_compute; intros [= <-]; by eexists.
Defined.

(** C3 as stated fails on the code: an exception that is not an
    [InvalidGameError] is not caught.  A color without a name in the first
    game ([KeyError]), or two acting players in its step
    ([RuntimeError]), ends [main] with that exception, and the second game
    is never replayed: its log file is not written. *)
Lemma other_errors_stop_the_batch :
  main example_unknown_color example_descriptions example_color_map ∅
    = ({[1 := []]}, Some KeyError) /\
  main example_two_actors example_descriptions example_color_map ∅
    = ({[1 := [HeaderLine 0]]}, Some RuntimeError).
Proof. split; vm_compute; reflexivity. Qed.

(** ** What a handler that returns has done *)

Lemma draw_new_card_Ok p deck ptr cm s s' ptr' :
  draw_new_card p deck ptr cm s = (s', Ok ptr') ->
  (50 <= ptr /\ s' = s /\ ptr' = ptr) \/
  (ptr < 50 /\ exists row new_card hand,
     py_index deck ptr = Some row /\ card_str row cm = Ok new_card /\
     hands s !! p = Some hand /\
     s' = Store (<[p := hand ++ [new_card]]> (hands s)) (discard_pile s)
                (played_pile s) (file s ++ [DrewLine new_card]) /\
     ptr' = ptr + 1).
Proof.
  rewrite draw_new_card_eq. destruct (Z.ltb_spec ptr 50).
  2: { intros [= <- <-]. by left. }
  destruct (py_index deck ptr) as [row|] eqn:Hrow; [|done].
  destruct (card_str row cm) as [new_card|] eqn:Hnew; [|done].
  destruct (hands s !! p) as [hand|] eqn:Hhand; [|done].
  intros [= <- <-]. right. split; [done|].
  by exists row, new_card, hand.
Qed.

Lemma handle_discard_Ok v p deck ptr cm s s' ptr' :
  handle_discard v p deck ptr cm s = (s', Ok ptr') ->
  exists hand c hand',
    hands s !! p = Some hand /\ py_pop hand v = Some (c, hand') /\
    draw_new_card p deck ptr cm
      (Store (<[p := hand']> (hands s)) (discard_pile s ++ [c])
             (played_pile s) (file s ++ [DiscardedLine c])) = (s', Ok ptr').
Proof.
  rewrite handle_discard_eq.
  destruct (hands s !! p) as [hand|] eqn:Hhand; [|done].
  destruct (Z.of_nat (length hand) <=? v); [done|].
  destruct (py_pop hand v) as [[c hand']|] eqn:Hpop; [|done].
  intros Hdraw. by exists hand, c, hand'.
Qed.

Lemma handle_play_Ok v p deck ptr cm s s' ptr' :
  handle_play v p deck ptr cm s = (s', Ok ptr') ->
  exists hand c hand' color rank height,
    hands s !! p = Some hand /\ py_pop hand (v - 5) = Some (c, hand') /\
    card_split c = Ok (color, rank) /\
    played_pile s !! color = Some height /\
    draw_new_card p deck ptr cm
      (Store (<[p := hand']> (hands s)) (discard_pile s)
             (if height <? rank then <[color := rank]> (played_pile s)
              else played_pile s)
             (file s ++ [PlayedLine c])) = (s', Ok ptr').
Proof.
  rewrite handle_play_eq.
  destruct (hands s !! p) as [hand|] eqn:Hhand; [|done].
  destruct (Z.of_nat (length hand) <=? v - 5); [done|].
  destruct (py_pop hand (v - 5)) as [[c hand']|] eqn:Hpop; [|done].
  simpl. destruct (card_split c) as [[color rank]|] eqn:Hsplit; [|done].
  destruct (played_pile s !! color) as [height|] eqn:Hheight; [|done].
  intros Hdraw. by exists hand, c, hand', color, rank, height.
Qed.

(** ** Invariants of the runs that return *)

Section StepInvariant.
Variable game_deck : list card_tuple.
Variable color_map : gmap Z string.
Variable I : store -> Z -> Prop.
Hypothesis I_print : forall l s ptr,
  is_step_line l = true -> I s ptr -> I (print l s).1 ptr.
Hypothesis I_discard : forall v p ptr s s' ptr',
  handle_discard v p game_deck ptr color_map s = (s', Ok ptr') ->
  I s ptr -> I s' ptr'.
Hypothesis I_play : forall v p ptr s s' ptr',
  handle_play v p game_deck ptr color_map s = (s', Ok ptr') ->
  I s ptr -> I s' ptr'.

Lemma trace_step_inv actions descs action_num ptr s s' ptr' :
  trace_step actions game_deck descs color_map action_num ptr s
    = (s', Ok ptr') ->
  I s ptr -> I s' ptr'.
Proof.
  destruct (py_index actions action_num) as [action_vec|] eqn:Hvec.
  2: { unfold trace_step. unfold bind at 1, lift at 1. by rewrite Hvec. }
  rewrite (trace_step_vec _ _ _ _ _ _ _ _ Hvec).
  destruct (nonzero_ne_30 action_vec) as [|p [|q rest]]; [|..|done].
  { by intros [= <- <-]. }
  destruct (action_vec !! p) as [v|]; [|done].
  destruct ((v <? 0) || (30 <? v)); [done|].
  destruct (py_index descs v) as [action_text|]; [|done].
  intros Hrun Hs.
  apply (I_print (StepLine action_num p action_text)) in Hs; [|done].
  set (s1 := (print (StepLine action_num p action_text) s).1) in *.
  change (Store (hands s) (discard_pile s) (played_pile s)
                (file s ++ [StepLine action_num p action_text]))
    with s1 in Hrun.
  revert Hrun. unfold bind at 1.
  destruct ((0 <=? v) && (v <=? 4)).
  { destruct (handle_discard v p game_deck ptr color_map s1)
      as [s2 [ptr2|e]] eqn:Hd; [|done].
    cbv [bind print_game_state ret]. intros [= <- <-].
    apply (I_print (StateLines (hands s2) (discard_pile s2)
                               (played_pile s2))); [done|].
    by eapply I_discard. }
  destruct ((5 <=? v) && (v <=? 9)).
  { destruct (handle_play v p game_deck ptr color_map s1)
      as [s2 [ptr2|e]] eqn:Hd; [|done].
    cbv [bind print_game_state ret]. intros [= <- <-].
    apply (I_print (StateLines (hands s2) (discard_pile s2)
                               (played_pile s2))); [done|].
    by eapply I_play. }
  destruct ((10 <=? v) && (v <=? 29)).
  - intros Hrun.
    set (s2 := (print HintLine s1).1).
    replace s' with (print (StateLines (hands s2) (discard_pile s2)
                                       (played_pile s2)) s2).1
      by (by injection Hrun).
    replace ptr' with ptr by (by injection Hrun).
    apply I_print; [done|]. by apply I_print.
  - intros Hrun.
    replace s' with (print (StateLines (hands s1) (discard_pile s1)
                                       (played_pile s1)) s1).1
      by (by injection Hrun).
    replace ptr' with ptr by (by injection Hrun).
    by apply I_print.
Qed.

Lemma trace_loop_inv actions descs steps ptr s s' ptr' :
  trace_loop actions game_deck descs color_map steps ptr s = (s', Ok ptr') ->
  I s ptr -> I s' ptr'.
Proof.
  revert ptr s. induction steps as [|action_num rest IH]; intros ptr s.
  - by intros [= <- <-].
  - simpl. unfold bind.
    destruct (trace_step actions game_deck descs color_map action_num ptr s)
      as [s1 [ptr1|e]] eqn:Hstep; [|done].
    intros Hrest Hs. apply (IH _ _ Hrest). by eapply trace_step_inv.
Qed.

Lemma replay_inv game_idx actions k num_players descs file0 s ptr :
  (forall hs dp pp ptr0,
     initialize_game_state game_deck num_players color_map
       = Ok (hs, dp, pp, ptr0) ->
     I (Store hs dp pp (file0 ++ [HeaderLine game_idx])) ptr0) ->
  replay game_idx actions game_deck k num_players descs color_map file0
    = (s, Ok ptr) ->
  I s ptr.
Proof.
  intros Hinit. unfold replay.
  destruct (initialize_game_state game_deck num_players color_map)
    as [[[[hs dp] pp] ptr0]|]; [|done].
  unfold bind at 1. intros Hloop.
  apply (trace_loop_inv _ _ _ _ _ _ _ Hloop). by apply Hinit.
Qed.
End StepInvariant.

(** ** Finding the acting player *)

Lemma nonzero_from_spec i action_vec p :
  p ∈ nonzero_from i action_vec <->
  exists v, (i <= p)%nat /\ action_vec !! (p - i)%nat = Some v /\ v <> 30.
Proof.
  revert i. induction action_vec as [|w rest IH]; intros i; simpl.
  - split; [intros Hp; by apply elem_of_nil in Hp|].
    intros (v & _ & Hv & _). by rewrite lookup_nil in Hv.
  - destruct (Z.eqb_spec w 30) as [->|Hw].
    + rewrite IH. split.
      * intros (v & Hi & Hv & Hne). exists v. split; [lia|]. split; [|done].
        replace (p - i)%nat with (S (p - S i)) by lia. done.
      * intros (v & Hi & Hv & Hne).
        destruct (decide (p = i)) as [->|Hpi].
        { replace (i - i)%nat with 0%nat in Hv by lia. simpl in Hv.
          by injection Hv as <-. }
        exists v. split; [lia|]. split; [|done].
        replace (p - i)%nat with (S (p - S i)) in Hv by lia. done.
    + rewrite elem_of_cons, IH. split.
      * intros [-> | (v & Hi & Hv & Hne)].
        { exists w. split; [lia|]. split; [|done].
          by replace (i - i)%nat with 0%nat by lia. }
        exists v. split; [lia|]. split; [|done].
        replace (p - i)%nat with (S (p - S i)) by lia. done.
      * intros (v & Hi & Hv & Hne).
        destruct (decide (p = i)) as [->|Hpi]; [by left|]. right.
        exists v. split; [lia|]. split; [|done].
        replace (p - i)%nat with (S (p - S i)) in Hv by lia. done.
Qed.

Lemma nonzero_from_all_30 i action_vec :
  Forall (fun v => v = 30) action_vec -> nonzero_from i action_vec = [].
Proof.
  intros Hall. revert i. induction Hall as [|v rest -> _ IH]; intros i; simpl.
  - done.
  - apply IH.
Qed.

Lemma nonzero_from_single i action_vec p v :
  action_vec !! p = Some v -> v <> 30 ->
  (forall q w, action_vec !! q = Some w -> q <> p -> w = 30) ->
  nonzero_from i action_vec = [(i + p)%nat].
Proof.
  revert i p. induction action_vec as [|w rest IH]; intros i p Hv Hne Hothers.
  - by rewrite lookup_nil in Hv.
  - destruct p as [|p]; simpl in *.
    + injection Hv as ->. destruct (Z.eqb_spec v 30); [done|].
      rewrite nonzero_from_all_30.
      * by replace (i + 0)%nat with i by lia.
      * apply Forall_lookup. intros q x Hq. by apply (Hothers (S q)).
    + rewrite (Hothers 0%nat w) by done. simpl.
      rewrite (IH (S i) p Hv Hne).
      * by replace (S i + p)%nat with (i + S p)%nat by lia.
      * intros q x Hq Hqp. apply (Hothers (S q)); [done|lia].
Qed.

(** X2: the positions [trace_game] takes the acting player from are
    exactly the positions of the step vector whose code is not 30; when
    one player [p] alone has such a code the list is [[p]], so [p] is the
    acting player. *)
Theorem actor_is_the_player_without_30 action_vec :
  (forall p, p ∈ nonzero_ne_30 action_vec <->
     exists v, action_vec !! p = Some v /\ v <> 30) /\
  (forall p v,
     action_vec !! p = Some v -> v <> 30 ->
     (forall q w, action_vec !! q = Some w -> q <> p -> w = 30) ->
     nonzero_ne_30 action_vec = [p]).
Proof.
  split.
  - intros p. unfold nonzero_ne_30. rewrite nonzero_from_spec.
    replace (p - 0)%nat with p by lia. split.
    + intros (v & _ & Hv & Hne). by exists v.
    + intros (v & Hv & Hne). exists v. split; [lia|done].
  - intros p v Hv Hne Hothers. unfold nonzero_ne_30.
    by rewrite (nonzero_from_single 0 action_vec p v).
Qed.

(** X3: a step whose vector holds nothing but the code 30 (or is empty)
    is skipped: the step returns at once with the store, log included,
    and the draw pointer as they were. *)
Theorem all_30_step_is_skipped actions deck descs cm action_num ptr
    action_vec s :
  py_index actions action_num = Some action_vec ->
  Forall (fun v => v = 30) action_vec ->
  trace_step actions deck descs cm action_num ptr s = (s, Ok ptr).
Proof.
  intros Hvec Hall. rewrite (trace_step_vec _ _ _ _ _ _ _ _ Hvec).
  unfold nonzero_ne_30. by rewrite nonzero_from_all_30.
Qed.

Lemma all_30_step_is_skipped_witness :
  trace_step [[30; 30; 30]] example_deck50 example_descriptions
             example_color_map 0 15 example_store = (example_store, Ok 15).
Proof.
  apply (all_30_step_is_skipped [[30; 30; 30]] example_deck50
           example_descriptions example_color_map 0 15 [30; 30; 30]
           example_store eq_refl).
  by repeat constructor.
Defined.

Lemma actor_is_the_player_without_30_witness :
  (1%nat ∈ nonzero_ne_30 [30; 7; 30] <->
     exists v, [30; 7; 30] !! 1%nat = Some v /\ v <> 30) /\
  nonzero_ne_30 [30; 7; 30] = [1%nat].
Proof.
  destruct (actor_is_the_player_without_30 [30; 7; 30]) as [Hin Hsingle].
  split; [apply Hin|].
  apply (Hsingle 1%nat 7 eq_refl); [lia|].
  intros [|[|[|q]]] w Hw Hq; simpl in Hw; try done; by injection Hw as <-.
Defined.

(** ** What a run only adds to *)

Lemma continues_refl s : continues s s.
Proof. by repeat split. Qed.

Lemma continues_trans s1 s2 s3 :
  continues s1 s2 -> continues s2 s3 -> continues s1 s3.
Proof.
  intros (Hf12 & Hd12 & Hh12) (Hf23 & Hd23 & Hh23).
  split; [by etrans|]. split; [by etrans|]. congruence.
Qed.

Lemma print_continues l s : continues s (print l s).1.
Proof. split; [by apply prefix_app_r|]. by split. Qed.

Lemma draw_new_card_continues p deck ptr cm s :
  continues s (draw_new_card p deck ptr cm s).1.
Proof.
  rewrite draw_new_card_eq.
  destruct (ptr <? 50); [|apply continues_refl].
  destruct (py_index deck ptr) as [row|]; [|apply continues_refl].
  destruct (card_str row cm) as [new_card|]; [|apply continues_refl].
  destruct (hands s !! p) as [hand|]; [|apply continues_refl].
  split; [by apply prefix_app_r|]. split; [done|]. apply length_insert.
Qed.

Lemma handle_discard_continues v p deck ptr cm s :
  continues s (handle_discard v p deck ptr cm s).1.
Proof.
  rewrite handle_discard_eq.
  destruct (hands s !! p) as [hand|]; [|apply continues_refl].
  destruct (Z.of_nat (length hand) <=? v); [apply continues_refl|].
  destruct (py_pop hand v) as [[c hand']|]; [|apply continues_refl].
  eapply continues_trans; [|apply draw_new_card_continues].
  split; [by apply prefix_app_r|]. split; [by apply prefix_app_r|].
  apply length_insert.
Qed.

Lemma handle_play_continues v p deck ptr cm s :
  continues s (handle_play v p deck ptr cm s).1.
Proof.
  rewrite handle_play_eq.
  destruct (hands s !! p) as [hand|]; [|apply continues_refl].
  destruct (Z.of_nat (length hand) <=? v - 5); [apply continues_refl|].
  destruct (py_pop hand (v - 5)) as [[c hand']|]; [|apply continues_refl].
  assert (Hpopped : continues s
    (Store (<[p := hand']> (hands s)) (discard_pile s) (played_pile s)
           (file s ++ [PlayedLine c]))).
  { split; [by apply prefix_app_r|]. split; [done|]. apply length_insert. }
  simpl. destruct (card_split c) as [[color rank]|]; [|done].
  destruct (played_pile s !! color) as [height|]; [|done].
  eapply continues_trans; [|apply draw_new_card_continues].
  split; [by apply prefix_app_r|]. split; [done|]. apply length_insert.
Qed.

Lemma trace_loop_continues actions deck descs cm steps ptr s :
  continues s (trace_loop actions deck descs cm steps ptr s).1.
Proof.
  apply (trace_loop_rel deck cm continues).
  - apply continues_refl.
  - apply continues_trans.
  - apply print_continues.
  - intros v p ptr1 s1. apply handle_discard_continues.
  - intros v p ptr1 s1. apply handle_play_continues.
Qed.

(** X4: the replay only ever appends to its log.  Whatever the run of the
    loop or the whole of [trace_game] does, and however it ends, what the
    file held before is still there, at the front: a failure keeps the
    part of the trace already written. *)
Theorem log_is_append_only game_idx actions deck num_actions num_players
    score descs cm :
  (forall steps ptr s,
     file s `prefix_of` file (trace_loop actions deck descs cm steps ptr s).1)
  /\
  (forall file0,
     file0 `prefix_of`
       file (trace_game game_idx actions deck num_actions num_players score
                        descs cm file0).1).
Proof.
  split.
  - intros steps ptr s. apply trace_loop_continues.
  - intros file0. unfold trace_game, replay.
    destruct (initialize_game_state deck num_players cm)
      as [[[[hs dp] pp] ptr0]|]; [|done].
    unfold bind at 1. simpl.
    pose proof (trace_loop_continues actions deck descs cm (range num_actions)
                  ptr0 (Store hs dp pp (file0 ++ [HeaderLine game_idx])))
      as (Hfile & _).
    destruct (trace_loop actions deck descs cm (range num_actions) ptr0 _)
      as [s [ptr|e]]; simpl in *.
    + cbv [bind print]. simpl. rewrite <- app_assoc.
      transitivity (file0 ++ [HeaderLine game_idx]);
        [by apply prefix_app_r|].
      transitivity (file s); [exact Hfile | by apply prefix_app_r].
    + transitivity (file0 ++ [HeaderLine game_idx]);
        [by apply prefix_app_r | exact Hfile].
Qed.

(** X5: no run of the loop, however it ends, takes a card back from the
    discard pile or changes the number of hands: the pile it leaves starts
    with the pile it was given, and the players are as many as before. *)
Theorem discard_pile_only_grows actions deck descs cm steps ptr s :
  let s' := (trace_loop actions deck descs cm steps ptr s).1 in
  discard_pile s `prefix_of` discard_pile s' /\
  length (hands s') = length (hands s).
Proof.
  intros s'.
  destruct (trace_loop_continues actions deck descs cm steps ptr s)
    as (_ & Hpile & Hhands).
  by split.
Qed.

(** ** The log against the state *)

Lemma discards_logged_app f g :
  discards_logged (f ++ g) = discards_logged f ++ discards_logged g.
Proof.
  induction f as [|l f IH]; [done|].
  destruct l; simpl; by rewrite ?IH.
Qed.

Lemma cards_drawn_app f l :
  cards_drawn (f ++ [l]) =
  (cards_drawn f + if is_drew_line l then 1 else 0)%nat.
Proof.
  unfold cards_drawn. rewrite filter_app, length_app.
  rewrite filter_cons, filter_nil.
  destruct (is_drew_line l); case_decide; simpl; done || lia.
Qed.

Lemma highest_played_nonneg color f : 0 <= highest_played color f.
Proof. induction f as [|l f IH]; simpl; lia. Qed.

Lemma highest_played_app color f l :
  highest_played color (f ++ [l]) =
  Z.max (highest_played color f) (played_rank color l).
Proof.
  induction f as [|l0 f IH]; simpl.
  - lia.
  - rewrite IH. lia.
Qed.

(** X6: in every state a replay reaches without an exception the discard
    pile is the list of the cards of the ["-> Discarded"] lines the replay
    has written, in the order of the lines. *)
Theorem discard_pile_is_logged game_idx actions deck k num_players descs cm
    file0 s ptr :
  replay game_idx actions deck k num_players descs cm file0 = (s, Ok ptr) ->
  discards_logged (file s) = discards_logged file0 ++ discard_pile s.
Proof.
  apply (replay_inv deck cm
    (fun s _ => discards_logged (file s)
                = discards_logged file0 ++ discard_pile s)).
  - intros l s1 _ Hl Hs1. simpl. rewrite discards_logged_app, Hs1.
    destruct l; try done; simpl; by rewrite app_nil_r.
  - intros v p ptr1 s1 s2 ptr2 Hrun Hs1.
    apply handle_discard_Ok in Hrun
      as (hand & c & hand' & _ & _ & Hdraw).
    apply draw_new_card_Ok in Hdraw
      as [(_ & -> & _) | (_ & row & new_card & hand1 & _ & _ & _ & -> & _)];
      simpl; rewrite ?discards_logged_app, Hs1; simpl;
      by rewrite ?app_nil_r, ?app_assoc.
  - intros v p ptr1 s1 s2 ptr2 Hrun Hs1.
    apply handle_play_Ok in Hrun
      as (hand & c & hand' & color & rank & height & _ & _ & _ & _ & Hdraw).
    apply draw_new_card_Ok in Hdraw
      as [(_ & -> & _) | (_ & row & new_card & hand1 & _ & _ & _ & -> & _)];
      simpl; rewrite ?discards_logged_app, Hs1; simpl;
      by rewrite ?app_nil_r.
  - intros hs dp pp ptr0. unfold initialize_game_state.
    destruct (deal_hands deck (range num_players) cm); [|done].
    intros [= _ <- _ _]. simpl.
    rewrite discards_logged_app. simpl. by rewrite !app_nil_r.
Qed.

Lemma discard_pile_is_logged_witness :
  let r := replay 0 [[3; 30]; [30; 5]; [30; 30]; [12; 30]; [30; 4]]
                  example_deck50 5 2 example_descriptions example_color_map
                  [] in
  r.2 = Ok 13 /\
  discards_logged (file r.1) = discards_logged [] ++ discard_pile r.1.
Proof.
  intros r. split; [vm_compute; reflexivity|].
  apply (discard_pile_is_logged 0
           [[3; 30]; [30; 5]; [30; 30]; [12; 30]; [30; 4]]
           example_deck50 5 2 example_descriptions example_color_map [] r.1 13).
  vm_compute. reflexivity.
Defined.

(** X7: in every state a replay reaches without an exception the draw
    pointer has not gone back below its start [5 * num_players], has not
    passed 50 unless it started there, and has moved by exactly the number
    of ["-> Drew"] lines the replay has written. *)
Theorem draw_pointer_counts_draws game_idx actions deck k num_players descs
    cm file0 s ptr :
  replay game_idx actions deck k num_players descs cm file0 = (s, Ok ptr) ->
  num_players * 5 <= ptr <= Z.max (num_players * 5) 50 /\
  ptr = num_players * 5 + Z.of_nat (cards_drawn (file s))
        - Z.of_nat (cards_drawn file0).
Proof.
  apply (replay_inv deck cm
    (fun s ptr =>
       num_players * 5 <= ptr <= Z.max (num_players * 5) 50 /\
       ptr = num_players * 5 + Z.of_nat (cards_drawn (file s))
             - Z.of_nat (cards_drawn file0))).
  - intros l s1 ptr1 Hl [Hbounds Hcount]. split; [done|]. simpl.
    rewrite cards_drawn_app. destruct l; try done; simpl; lia.
  - intros v p ptr1 s1 s2 ptr2 Hrun [Hbounds Hcount].
    apply handle_discard_Ok in Hrun
      as (hand & c & hand' & _ & _ & Hdraw).
    apply draw_new_card_Ok in Hdraw
      as [(? & -> & ->)
         | (? & row & new_card & hand1 & _ & _ & _ & -> & ->)];
      simpl; rewrite ?cards_drawn_app; simpl; lia.
  - intros v p ptr1 s1 s2 ptr2 Hrun [Hbounds Hcount].
    apply handle_play_Ok in Hrun
      as (hand & c & hand' & color & rank & height & _ & _ & _ & _ & Hdraw).
    apply draw_new_card_Ok in Hdraw
      as [(? & -> & ->)
         | (? & row & new_card & hand1 & _ & _ & _ & -> & ->)];
      simpl; rewrite ?cards_drawn_app; simpl; lia.
  - intros hs dp pp ptr0. unfold initialize_game_state.
    destruct (deal_hands deck (range num_players) cm); [|done].
    intros [= _ _ _ <-]. simpl. rewrite cards_drawn_app. simpl. lia.
Qed.

Lemma draw_pointer_counts_draws_witness :
  let r := replay 0 [[3; 30]; [30; 5]; [30; 30]; [12; 30]; [30; 4]]
                  example_deck50 5 2 example_descriptions example_color_map
                  [] in
  r.2 = Ok 13 /\
  2 * 5 <= 13 <= Z.max (2 * 5) 50 /\
  13 = 2 * 5 + Z.of_nat (cards_drawn (file r.1)) - Z.of_nat (cards_drawn []).
Proof.
  intros r. split; [vm_compute; reflexivity|].
  apply (draw_pointer_counts_draws 0
           [[3; 30]; [30; 5]; [30; 30]; [12; 30]; [30; 4]]
           example_deck50 5 2 example_descriptions example_color_map [] r.1 13).
  vm_compute. reflexivity.
Defined.

Lemma initial_played_pile_zero cm color h :
  initial_played_pile cm !! color = Some h -> h = 0.
Proof.
  unfold initial_played_pile. intros Hh.
  apply elem_of_list_to_map_2 in Hh.
  apply list_elem_of_fmap in Hh as ([k n] & [= _ ->] & _). done.
Qed.

(** X8: in every state a replay reaches without an exception the stack of
    a color stands at the highest rank played in that color since the
    replay began (0 when none was), whatever the order of the ranks: a
    play raises the stack to any higher rank, a rank that does not follow
    the stack included.  With a log that was empty of plays at the start
    the stack is the highest rank the log shows. *)
Theorem stack_is_highest_rank_played game_idx actions deck k num_players
    descs cm file0 s ptr :
  replay game_idx actions deck k num_players descs cm file0 = (s, Ok ptr) ->
  forall color h, played_pile s !! color = Some h ->
    0 <= h /\
    highest_played color (file s) = Z.max (highest_played color file0) h /\
    (highest_played color file0 = 0 -> h = highest_played color (file s)).
Proof.
  intros Hreplay.
  assert (Hinv : forall color h, played_pile s !! color = Some h ->
    0 <= h /\
    highest_played color (file s) = Z.max (highest_played color file0) h).
  2: { intros color h Hh. destruct (Hinv color h Hh) as [Hpos Hmax].
       split; [done|]. split; [done|]. lia. }
  revert Hreplay.
  apply (replay_inv deck cm
    (fun s _ => forall color h, played_pile s !! color = Some h ->
       0 <= h /\
       highest_played color (file s)
       = Z.max (highest_played color file0) h)).
  - intros l s1 _ Hl Hs1 color h Hh. simpl in *.
    destruct (Hs1 color h Hh) as [Hpos Hmax]. split; [done|].
    rewrite highest_played_app, Hmax. destruct l; try done; simpl; lia.
  - intros v p ptr1 s1 s2 ptr2 Hrun Hs1 color0 h.
    apply handle_discard_Ok in Hrun
      as (hand & c & hand' & _ & _ & Hdraw).
    apply draw_new_card_Ok in Hdraw
      as [(_ & -> & _) | (_ & row & new_card & hand1 & _ & _ & _ & -> & _)];
      simpl; intros Hh; destruct (Hs1 color0 h Hh) as [Hpos Hmax];
      (split; [done|]); rewrite !highest_played_app, Hmax; simpl; lia.
  - intros v p ptr1 s1 s2 ptr2 Hrun Hs1 color0 h.
    apply handle_play_Ok in Hrun
      as (hand & c & hand' & color & rank & height
          & _ & _ & Hsplit & Hheight & Hdraw).
    destruct (Hs1 color height Hheight) as [Hpos Hmax].
    assert (Hplay : forall h0,
      (if height <? rank then <[color := rank]> (played_pile s1)
       else played_pile s1) !! color0 = Some h0 ->
      0 <= h0 /\
      highest_played color0 (file s1 ++ [PlayedLine c])
      = Z.max (highest_played color0 file0) h0).
    { intros h0 Hh0. rewrite highest_played_app. simpl. rewrite Hsplit.
      destruct (decide (color = color0)) as [<-|Hne].
      - destruct (Z.ltb_spec height rank).
        + rewrite lookup_insert_eq in Hh0. injection Hh0 as <-.
          split; [lia|]. rewrite Hmax. lia.
        + rewrite Hheight in Hh0. injection Hh0 as <-.
          split; [lia|]. rewrite Hmax. lia.
      - assert (played_pile s1 !! color0 = Some h0) as Hold.
        { destruct (height <? rank); [|done].
          by rewrite lookup_insert_ne in Hh0. }
        destruct (Hs1 color0 h0 Hold) as [Hpos0 Hmax0].
        split; [done|]. rewrite Hmax0. lia. }
    apply draw_new_card_Ok in Hdraw
      as [(_ & -> & _) | (_ & row & new_card & hand1 & _ & _ & _ & -> & _)];
      simpl; intros Hh; destruct (Hplay h Hh) as [Hpos' Hmax'];
      (split; [done|]).
    + exact Hmax'.
    + rewrite highest_played_app, Hmax'. simpl. lia.
  - intros hs dp pp ptr0. unfold initialize_game_state.
    destruct (deal_hands deck (range num_players) cm); [|done].
    intros [= _ _ <- _] color h Hh. simpl.
    apply initial_played_pile_zero in Hh as ->. split; [done|].
    rewrite highest_played_app. simpl.
    pose proof (highest_played_nonneg color file0). lia.
Qed.

Lemma stack_is_highest_rank_played_witness :
  let r := replay 0 [[8; 30]; [30; 5]; [6; 30]]
                  example_deck50 3 2 example_descriptions example_color_map
                  [] in
  r.2 = Ok 13 /\
  played_pile r.1 !! "R"%string = Some 4 /\
  4 = highest_played "R" (file r.1).
Proof.
  intros r. split; [vm_compute; reflexivity|].
  split; [vm_compute; reflexivity|].
  apply (stack_is_highest_rank_played 0 [[8; 30]; [30; 5]; [6; 30]]
           example_deck50 3 2 example_descriptions example_color_map []
           r.1 13).
  - vm_compute. reflexivity.
  - vm_compute. reflexivity.
  - reflexivity.
Defined.

(** ** The size of the hands *)

Lemma deal_hands_lengths deck cm (m a : nat) hs hand :
  deal_hands deck (seqZ (Z.of_nat a) (Z.of_nat m)) cm = Ok hs ->
  hand ∈ hs ->
  exists i, (a <= i < a + m)%nat /\
    length hand = (5 `min` (length deck - 5 * i))%nat.
Proof.
  revert a hs. induction m as [|m IH]; intros a hs.
  - intros [= <-] Hin. by apply elem_of_nil in Hin.
  - rewrite seqZ_cons by lia. cbn [deal_hands].
    destruct (render_cards _ cm) as [hand0|] eqn:Hhand0; [|done].
    replace (Z.succ (Z.of_nat a)) with (Z.of_nat (S a)) by lia.
    replace (Z.pred (Z.of_nat (S m))) with (Z.of_nat m) by lia.
    destruct (deal_hands deck _ cm) as [hs0|] eqn:Hdeal; [|done].
    intros [= <-] Hin. apply elem_of_cons in Hin as [-> | Hin].
    + exists a. split; [lia|].
      rewrite (render_cards_length _ _ _ Hhand0). apply py_slice_hand_length.
    + destruct (IH (S a) hs0 Hdeal Hin) as (i & Hi & Hlen).
      exists i. split; [lia|done].
Qed.

Lemma initialize_full_hands deck num_players cm hs dp pp ptr0 hand :
  initialize_game_state deck num_players cm = Ok (hs, dp, pp, ptr0) ->
  5 * num_players <= Z.of_nat (length deck) ->
  hand ∈ hs -> length hand = 5%nat.
Proof.
  unfold initialize_game_state, range.
  destruct (deal_hands deck (seqZ 0 num_players) cm) as [hs0|] eqn:Hdeal;
    [|done].
  intros [= <- _ _ _] Hfull Hin.
  destruct (Z.le_gt_cases 0 num_players) as [Hn|Hn].
  - replace (seqZ 0 num_players)
      with (seqZ (Z.of_nat 0) (Z.of_nat (Z.to_nat num_players))) in Hdeal
      by (by rewrite Z2Nat.id).
    destruct (deal_hands_lengths _ _ _ _ _ _ Hdeal Hin) as (i & Hi & ->). lia.
  - unfold seqZ in Hdeal.
    replace (Z.to_nat num_players) with 0%nat in Hdeal by lia.
    simpl in Hdeal. injection Hdeal as <-. by apply elem_of_nil in Hin.
Qed.

Lemma draw_new_card_full_hands p deck ptr cm hs dp pp f hand' s' ptr' :
  draw_new_card p deck ptr cm (Store (<[p := hand']> hs) dp pp f)
    = (s', Ok ptr') ->
  (p < length hs)%nat ->
  (ptr < 50 -> length hand' = 4%nat /\
               forall hand, hand ∈ hs -> length hand = 5%nat) ->
  ptr' < 50 -> forall hand, hand ∈ hands s' -> length hand = 5%nat.
Proof.
  intros Hdraw Hp Hfull Hptr' hand Hin.
  apply draw_new_card_Ok in Hdraw
    as [(? & -> & ->)
       | (? & row & new_card & hand1 & _ & _ & Hhand1 & -> & ->)];
    [lia|].
  simpl in *. destruct Hfull as [Hlen Hhs]; [lia|].
  rewrite list_lookup_insert_eq in Hhand1 by done. injection Hhand1 as <-.
  rewrite list_insert_insert_eq in Hin.
  apply elem_of_insert_inv in Hin as [-> | Hin]; [|by apply Hhs].
  rewrite length_app. simpl. lia.
Qed.

(** X9: when the deck has the cards of the deal
    ([5 * num_players <= len(deck)]), every hand holds exactly five cards
    in every state a replay reaches without an exception while the draw
    pointer is below 50: each discard or play so far was followed by a
    draw. *)
Theorem hands_stay_at_five game_idx actions deck k num_players descs cm
    file0 s ptr :
  replay game_idx actions deck k num_players descs cm file0 = (s, Ok ptr) ->
  5 * num_players <= Z.of_nat (length deck) ->
  ptr < 50 ->
  forall hand, hand ∈ hands s -> length hand = 5%nat.
Proof.
  intros Hreplay Hdeck. revert Hreplay.
  apply (replay_inv deck cm
    (fun s ptr => ptr < 50 ->
       forall hand, hand ∈ hands s -> length hand = 5%nat)).
  - intros l s1 ptr1 _ Hs1. exact Hs1.
  - intros v p ptr1 s1 s2 ptr2 Hrun Hs1.
    apply handle_discard_Ok in Hrun
      as (hand & c & hand' & Hhand & Hpop & Hdraw).
    apply (draw_new_card_full_hands _ _ _ _ _ _ _ _ _ _ _ Hdraw).
    + by eapply lookup_lt_Some.
    + intros Hptr. split; [|by apply Hs1].
      apply py_pop_length in Hpop.
      pose proof (Hs1 Hptr hand (list_elem_of_lookup_2 _ _ _ Hhand)). lia.
  - intros v p ptr1 s1 s2 ptr2 Hrun Hs1.
    apply handle_play_Ok in Hrun
      as (hand & c & hand' & color & rank & height
          & Hhand & Hpop & _ & _ & Hdraw).
    apply (draw_new_card_full_hands _ _ _ _ _ _ _ _ _ _ _ Hdraw).
    + by eapply lookup_lt_Some.
    + intros Hptr. split; [|by apply Hs1].
      apply py_pop_length in Hpop.
      pose proof (Hs1 Hptr hand (list_elem_of_lookup_2 _ _ _ Hhand)). lia.
  - intros hs dp pp ptr0 Hinit _ hand Hin. simpl in Hin.
    by eapply initialize_full_hands.
Qed.

Lemma hands_stay_at_five_witness :
  let r := replay 0 [[3; 30]; [30; 5]; [30; 30]; [12; 30]; [30; 4]]
                  example_deck50 5 2 example_descriptions example_color_map
                  [] in
  r.2 = Ok 13 /\
  forall hand, hand ∈ hands r.1 -> length hand = 5%nat.
Proof.
  intros r. split; [vm_compute; reflexivity|].
  apply (hands_stay_at_five 0
           [[3; 30]; [30; 5]; [30; 30]; [12; 30]; [30; 4]]
           example_deck50 5 2 example_descriptions example_color_map [] r.1 13).
  - vm_compute. reflexivity.
  - simpl. lia.
  - lia.
Defined.

(** ** Failures after the card has moved *)

Lemma py_index_beyond {A : Type} (l : list A) (i : Z) :
  Z.of_nat (length l) <= i -> py_index l i = None.
Proof.
  intros Hi. unfold py_index.
  destruct (Z.ltb_spec i 0); [lia|].
  destruct (Z.ltb_spec i 0); [lia|].
  by destruct (Z.leb_spec (Z.of_nat (length l)) i); [|lia].
Qed.

(** X10: when the deck ends before position 50 and the draw pointer has
    reached its end, a discard on a valid index, and a play on a valid
    index of a card whose string reads back as a color that has a stack,
    still move the card (out of the hand, onto the discard pile or the
    stack, with its log line) and then fail with [IndexError] on the
    draw: the failure comes after the mutation and leaves it in place. *)
Theorem draw_past_short_deck_fails_after_the_move v p deck ptr cm s hand c :
  hands s !! p = Some hand ->
  Z.of_nat (length deck) <= ptr ->
  ptr < 50 ->
  (0 <= v < Z.of_nat (length hand) ->
   hand !! Z.to_nat v = Some c ->
   handle_discard v p deck ptr cm s =
     (Store (<[p := delete (Z.to_nat v) hand]> (hands s))
            (discard_pile s ++ [c]) (played_pile s)
            (file s ++ [DiscardedLine c]), Err IndexError)) /\
  (0 <= v - 5 < Z.of_nat (length hand) ->
   hand !! Z.to_nat (v - 5) = Some c ->
   forall color height,
   card_split c = Ok (color, rank1 c) ->
   played_pile s !! color = Some height ->
   handle_play v p deck ptr cm s =
     (Store (<[p := delete (Z.to_nat (v - 5)) hand]> (hands s))
            (discard_pile s)
            (if height <? rank1 c then <[color := rank1 c]> (played_pile s)
             else played_pile s)
            (file s ++ [PlayedLine c]), Err IndexError)).
Proof.
  intros Hhand Hend Hptr. split.
  - intros Hv Hc. rewrite (handle_discard_valid _ _ _ _ _ _ _ _ Hhand Hv Hc).
    rewrite draw_new_card_eq, (py_index_beyond deck ptr Hend).
    by destruct (Z.ltb_spec ptr 50); [|lia].
  - intros Hv Hc color height Hsplit Hheight.
    rewrite (handle_play_valid _ _ _ _ _ _ _ _ _ _ Hhand Hv Hc Hsplit Hheight).
    rewrite draw_new_card_eq, (py_index_beyond deck ptr Hend).
    by destruct (Z.ltb_spec ptr 50); [|lia].
Qed.

Lemma draw_past_short_deck_fails_after_the_move_witness :
  handle_discard 3 0 example_deck10 10 example_color_map example_store =
    (Store [[Card "R" 1; Card "R" 2; Card "R" 3; Card "R" 5]]
           [Card "R" 4] (played_pile example_store)
           [DiscardedLine (Card "R" 4)], Err IndexError).
Proof.
  destruct (draw_past_short_deck_fails_after_the_move 3 0 example_deck10 10
              example_color_map example_store
              [Card "R" 1; Card "R" 2; Card "R" 3; Card "R" 4; Card "R" 5]
              (Card "R" 4) eq_refl ltac:(simpl; lia) ltac:(lia))
    as [Hdiscard _].
  exact (Hdiscard ltac:(simpl; lia) eq_refl).
Defined.

(** X11: a play on a valid index of a card whose string does not split
    into exactly a color and a rank (a color name that [split()] cuts in
    several words, at any whitespace character of Python, or an empty
    one) fails with [ValueError], and one whose color has no stack fails
    with [KeyError]; either way the card has already left the hand and
    its ["-> Played"] line is written, while the stacks are untouched. *)
Theorem play_of_unreadable_card_loses_it v p deck ptr cm s hand c :
  hands s !! p = Some hand ->
  0 <= v - 5 < Z.of_nat (length hand) ->
  hand !! Z.to_nat (v - 5) = Some c ->
  let s1 := Store (<[p := delete (Z.to_nat (v - 5)) hand]> (hands s))
                  (discard_pile s) (played_pile s)
                  (file s ++ [PlayedLine c]) in
  ((forall color, str_split EmptyString (color_name c) <> [color]) ->
   handle_play v p deck ptr cm s = (s1, Err ValueError)) /\
  (forall color,
     str_split EmptyString (color_name c) = [color] ->
     played_pile s !! color = None ->
     handle_play v p deck ptr cm s = (s1, Err KeyError)).
Proof.
  intros Hhand Hv Hc s1.
  assert (Heq : handle_play v p deck ptr cm s =
    match card_split c with
    | Err e => (s1, Err e)
    | Ok (color, rank) =>
        match played_pile s !! color with
        | None => (s1, Err KeyError)
        | Some height =>
            draw_new_card p deck ptr cm
              (Store (hands s1) (discard_pile s1)
                     (if height <? rank then <[color := rank]> (played_pile s)
                      else played_pile s) (file s1))
        end
    end).
  { rewrite handle_play_eq, Hhand.
    destruct (Z.leb_spec (Z.of_nat (length hand)) (v - 5)); [lia|].
    by rewrite (py_pop_valid hand (v - 5) c). }
  rewrite Heq. unfold card_split. split.
  - intros Hsplit.
    destruct (str_split EmptyString (color_name c)) as [|color [|? ?]];
      [done| |done].
    by destruct (Hsplit color).
  - intros color Hsplit Hnone. by rewrite Hsplit, Hnone.
Qed.

Lemma play_of_unreadable_card_loses_it_witness :
  handle_play 5 0 example_deck50 10 example_color_map
      (Store [[Card "Light Blue" 2; Card "R" 1]] []
             (initial_played_pile example_color_map) []) =
    (Store [[Card "R" 1]] [] (initial_played_pile example_color_map)
           [PlayedLine (Card "Light Blue" 2)], Err ValueError).
Proof.
  destruct (play_of_unreadable_card_loses_it 5 0 example_deck50 10
              example_color_map
              (Store [[Card "Light Blue" 2; Card "R" 1]] []
                     (initial_played_pile example_color_map) [])
              [Card "Light Blue" 2; Card "R" 1] (Card "Light Blue" 2)
              eq_refl ltac:(simpl; lia) eq_refl)
    as [Hsplit _].
  apply Hsplit. intros color. vm_compute. discriminate.
Defined.

(** ** What a handler leaves alone *)

Lemma draw_new_card_frame p deck ptr cm s q :
  q <> p ->
  hands (draw_new_card p deck ptr cm s).1 !! q = hands s !! q /\
  discard_pile (draw_new_card p deck ptr cm s).1 = discard_pile s.
Proof.
  intros Hq. rewrite draw_new_card_eq.
  destruct (ptr <? 50); [|done].
  destruct (py_index deck ptr) as [row|]; [|done].
  destruct (card_str row cm) as [new_card|]; [|done].
  destruct (hands s !! p) as [hand|]; [|done].
  simpl. split; [|done]. by apply list_lookup_insert_ne.
Qed.

(** X12: a discard or a play, however it ends, touches no hand but the
    acting player's; a discard leaves every stack as it was, and a play
    leaves the discard pile as it was. *)
Theorem handlers_touch_only_the_acting_hand v p deck ptr cm s q :
  q <> p ->
  let sd := (handle_discard v p deck ptr cm s).1 in
  let sp := (handle_play v p deck ptr cm s).1 in
  hands sd !! q = hands s !! q /\
  played_pile sd = played_pile s /\
  hands sp !! q = hands s !! q /\
  discard_pile sp = discard_pile s.
Proof.
  intros Hq sd sp. split; [|split; [apply handle_discard_played_pile|]].
  - unfold sd. rewrite handle_discard_eq.
    destruct (hands s !! p) as [hand|]; [|done].
    destruct (Z.of_nat (length hand) <=? v); [done|].
    destruct (py_pop hand v) as [[c hand']|]; [|done].
    destruct (draw_new_card_frame p deck ptr cm
      (Store (<[p := hand']> (hands s)) (discard_pile s ++ [c])
             (played_pile s) (file s ++ [DiscardedLine c])) q Hq) as [-> _].
    simpl. by apply list_lookup_insert_ne.
  - unfold sp. rewrite handle_play_eq.
    destruct (hands s !! p) as [hand|]; [|done].
    destruct (Z.of_nat (length hand) <=? v - 5); [done|].
    destruct (py_pop hand (v - 5)) as [[c hand']|]; [|done].
    assert (Hpopped : <[p := hand']> (hands s) !! q = hands s !! q)
      by (by apply list_lookup_insert_ne).
    simpl. destruct (card_split c) as [[color rank]|]; [|done].
    destruct (played_pile s !! color) as [height|]; [|done].
    match goal with
    | |- context [draw_new_card p deck ptr cm ?s1] =>
        destruct (draw_new_card_frame p deck ptr cm s1 q Hq) as [-> ->]
    end.
    done.
Qed.

Lemma handlers_touch_only_the_acting_hand_witness :
  let s := Store [[Card "R" 1; Card "R" 2]; [Card "Y" 1; Card "Y" 2]] []
                 (initial_played_pile example_color_map) [] in
  hands (handle_discard 1 0 example_deck50 10 example_color_map s).1 !! 1%nat
    = hands s !! 1%nat /\
  hands (handle_play 6 0 example_deck50 10 example_color_map s).1 !! 1%nat
    = hands s !! 1%nat.
Proof.
  intros s.
  destruct (handlers_touch_only_the_acting_hand 1 0 example_deck50 10
              example_color_map s 1 ltac:(lia)) as (Hd & _ & _ & _).
  destruct (handlers_touch_only_the_acting_hand 6 0 example_deck50 10
              example_color_map s 1 ltac:(lia)) as (_ & _ & Hp & _).
  split; [exact Hd | exact Hp].
Defined.

(** ** Steps and snapshots in the log *)

Lemma count_lines_app P f l :
  count_lines P (f ++ [l]) = (count_lines P f + if P l then 1 else 0)%nat.
Proof.
  unfold count_lines. rewrite filter_app, length_app.
  rewrite filter_cons, filter_nil.
  destruct (P l); case_decide; simpl; done || lia.
Qed.

Section MoveLines.
Variable P : line -> bool.
Hypothesis P_discarded : forall c, P (DiscardedLine c) = false.
Hypothesis P_played : forall c, P (PlayedLine c) = false.
Hypothesis P_drew : forall c, P (DrewLine c) = false.

Lemma draw_new_card_count p deck ptr cm s :
  count_lines P (file (draw_new_card p deck ptr cm s).1)
  = count_lines P (file s).
Proof.
  rewrite draw_new_card_eq.
  destruct (ptr <? 50); [|done].
  destruct (py_index deck ptr) as [row|]; [|done].
  destruct (card_str row cm) as [new_card|]; [|done].
  destruct (hands s !! p) as [hand|]; [|done].
  simpl. rewrite count_lines_app, P_drew. lia.
Qed.

Lemma handle_discard_count v p deck ptr cm s :
  count_lines P (file (handle_discard v p deck ptr cm s).1)
  = count_lines P (file s).
Proof.
  rewrite handle_discard_eq.
  destruct (hands s !! p) as [hand|]; [|done].
  destruct (Z.of_nat (length hand) <=? v); [done|].
  destruct (py_pop hand v) as [[c hand']|]; [|done].
  rewrite draw_new_card_count. simpl.
  rewrite count_lines_app, P_discarded. lia.
Qed.

Lemma handle_play_count v p deck ptr cm s :
  count_lines P (file (handle_play v p deck ptr cm s).1)
  = count_lines P (file s).
Proof.
  rewrite handle_play_eq.
  destruct (hands s !! p) as [hand|]; [|done].
  destruct (Z.of_nat (length hand) <=? v - 5); [done|].
  destruct (py_pop hand (v - 5)) as [[c hand']|]; [|done].
  assert (Hline : count_lines P (file s ++ [PlayedLine c])
                  = count_lines P (file s))
    by (rewrite count_lines_app, P_played; lia).
  simpl. destruct (card_split c) as [[color rank]|]; [|done].
  destruct (played_pile s !! color) as [height|]; [|done].
  by rewrite draw_new_card_count.
Qed.
End MoveLines.

Lemma trace_step_snapshots actions deck descs cm action_num ptr s :
  snapshots_follow_steps s
    (trace_step actions deck descs cm action_num ptr s).1
    (trace_step actions deck descs cm action_num ptr s).2.
Proof.
  assert (Hsame : forall r, snapshots_follow_steps s s r).
  { intros [?|?]; simpl; [lia | left; lia]. }
  destruct (py_index actions action_num) as [action_vec|] eqn:Hvec.
  2: { unfold trace_step. unfold bind at 1 3, lift at 1 2.
       rewrite Hvec. apply Hsame. }
  rewrite (trace_step_vec _ _ _ _ _ _ _ _ Hvec).
  destruct (nonzero_ne_30 action_vec) as [|p [|q rest]]; try apply Hsame.
  destruct (action_vec !! p) as [v|]; [|apply Hsame].
  destruct ((v <? 0) || (30 <? v)); [apply Hsame|].
  destruct (py_index descs v) as [action_text|]; [|apply Hsame].
  set (s1 := Store (hands s) (discard_pile s) (played_pile s)
                   (file s ++ [StepLine action_num p action_text])).
  assert (Hs1 : steps_logged (file s1) = S (steps_logged (file s)) /\
                snapshots_logged (file s1) = snapshots_logged (file s)).
  { unfold steps_logged, snapshots_logged. simpl.
    rewrite !count_lines_app. simpl. lia. }
  assert (Hdispatch : forall (m : M Z),
    steps_logged (file (m s1).1) = steps_logged (file s1) ->
    snapshots_logged (file (m s1).1) = snapshots_logged (file s1) ->
    snapshots_follow_steps s
      ((let! ptr' := m in print_game_state ;; ret ptr') s1).1
      ((let! ptr' := m in print_game_state ;; ret ptr') s1).2).
  { intros m Hsteps Hsnaps. unfold bind at 1 3.
    destruct (m s1) as [s2 [ptr2|e]]; simpl in *.
    - cbv [bind print_game_state print ret]. simpl.
      unfold steps_logged, snapshots_logged in *.
      rewrite !count_lines_app. simpl. lia.
    - right. lia. }
  apply Hdispatch.
  - destruct ((0 <=? v) && (v <=? 4)); [by apply handle_discard_count|].
    destruct ((5 <=? v) && (v <=? 9)); [by apply handle_play_count|].
    destruct ((10 <=? v) && (v <=? 29)); [|done].
    cbv [bind print ret]. simpl. unfold steps_logged.
    rewrite count_lines_app. simpl. lia.
  - destruct ((0 <=? v) && (v <=? 4)); [by apply handle_discard_count|].
    destruct ((5 <=? v) && (v <=? 9)); [by apply handle_play_count|].
    destruct ((10 <=? v) && (v <=? 29)); [|done].
    cbv [bind print ret]. simpl. unfold snapshots_logged.
    rewrite count_lines_app. simpl. lia.
Qed.

(** X13: every step the log announces has its snapshot of the state,
    except the step on which the replay failed.  When a run of the loop
    returns, it has written as many snapshots as ["Step ..."] lines; when
    it raises, at most one snapshot is missing, that of the failing
    step. *)
Theorem every_logged_step_has_its_snapshot actions deck descs cm steps ptr s :
  snapshots_follow_steps s
    (trace_loop actions deck descs cm steps ptr s).1
    (trace_loop actions deck descs cm steps ptr s).2.
Proof.
  revert ptr s. induction steps as [|action_num rest IH]; intros ptr s.
  - simpl. lia.
  - simpl. unfold bind.
    pose proof (trace_step_snapshots actions deck descs cm action_num ptr s)
      as Hstep.
    destruct (trace_step actions deck descs cm action_num ptr s)
      as [s1 [ptr1|e]]; simpl in Hstep; [|exact Hstep].
    specialize (IH ptr1 s1).
    destruct (trace_loop actions deck descs cm rest ptr1 s1) as [s2 [ptr2|e]];
      simpl in *; lia.
Qed.

(** ** Loading a game *)

(** X14: [load_game_data] raises [InvalidGameError] exactly when the index
    is at or beyond the number of games; an index below that number never
    gets this error, so the indices [main] passes never do. *)
Theorem load_game_data_rejects_index_beyond ds game_idx :
  (exists msg, load_game_data ds game_idx = Err (InvalidGameError msg)) <->
  Z.of_nat (length (ds_actions ds)) <= game_idx.
Proof.
  unfold load_game_data.
  destruct (Z.leb_spec (Z.of_nat (length (ds_actions ds))) game_idx).
  - split; [done|]. intros _. by eexists.
  - split; [|lia]. intros [msg Hmsg].
    destruct (py_index (ds_actions ds) game_idx); [|done].
    destruct (py_index (ds_decks ds) game_idx); [|done].
    destruct (py_index (ds_num_actions ds) game_idx); [|done].
    by destruct (py_index (ds_scores ds) game_idx).
Qed.

Lemma py_index_wraps {A : Type} (l : list A) (i : Z) :
  - Z.of_nat (length l) <= i < Z.of_nat (length l) ->
  py_index l i = l !! Z.to_nat (i mod Z.of_nat (length l)).
Proof.
  intros Hi. unfold py_index. destruct (Z.ltb_spec i 0).
  - destruct (Z.ltb_spec (i + Z.of_nat (length l)) 0); [lia|].
    destruct (Z.leb_spec (Z.of_nat (length l)) (i + Z.of_nat (length l)));
      [lia|].
    simpl. f_equal. f_equal.
    rewrite <- (Z.mod_add i 1 (Z.of_nat (length l))) by lia.
    rewrite Z.mod_small; lia.
  - destruct (Z.ltb_spec i 0); [lia|].
    destruct (Z.leb_spec (Z.of_nat (length l)) i); [lia|].
    simpl. by rewrite Z.mod_small by lia.
Qed.

(** X15: in a dataset whose per-game tensors all have one entry per game,
    an index from [-n] to [n - 1] loads a game without error, and a
    negative one is not refused: it counts from the end, [-1] loading the
    last game.  The player count is the same for every game. *)
Theorem load_game_data_counts_from_the_end ds game_idx :
  let n := length (ds_actions ds) in
  length (ds_decks ds) = n ->
  length (ds_num_actions ds) = n ->
  length (ds_scores ds) = n ->
  - Z.of_nat n <= game_idx < Z.of_nat n ->
  let j := Z.to_nat (game_idx mod Z.of_nat n) in
  exists actions deck num_actions score,
    ds_actions ds !! j = Some actions /\
    ds_decks ds !! j = Some deck /\
    ds_num_actions ds !! j = Some num_actions /\
    ds_scores ds !! j = Some score /\
    load_game_data ds game_idx =
      Ok (actions, deck, num_actions, ds_num_players ds, score).
Proof.
  intros n Hdecks Hnum Hscores Hidx j.
  assert (Hj : (j < n)%nat).
  { unfold j. pose proof (Z.mod_pos_bound game_idx (Z.of_nat n)). lia. }
  destruct (lookup_lt_is_Some_2 (ds_actions ds) j) as [actions Ha]; [done|].
  destruct (lookup_lt_is_Some_2 (ds_decks ds) j) as [deck Hd]; [lia|].
  destruct (lookup_lt_is_Some_2 (ds_num_actions ds) j) as [k Hk]; [lia|].
  destruct (lookup_lt_is_Some_2 (ds_scores ds) j) as [score Hs]; [lia|].
  exists actions, deck, k, score. repeat (split; [done|]).
  unfold load_game_data. fold n.
  destruct (Z.leb_spec (Z.of_nat n) game_idx); [lia|].
  rewrite !py_index_wraps by lia.
  rewrite Hdecks, Hnum, Hscores. fold n. fold j.
  by rewrite Ha, Hd, Hk, Hs.
Qed.

Lemma load_game_data_counts_from_the_end_witness :
  load_game_data example_invalid_value (-1) =
    Ok ([[30; 5]], example_deck50, 1, 2, 0).
Proof.
  destruct (load_game_data_counts_from_the_end example_invalid_value (-1)
              eq_refl eq_refl eq_refl ltac:(simpl; lia))
    as (actions & deck & num_actions & score & Ha & Hd & Hk & Hs & Hload).
  vm_compute in Ha, Hd, Hk, Hs.
  injection Ha as <-. injection Hd as <-. injection Hk as <-.
  injection Hs as <-. exact Hload.
Defined.

(** ** The batch driver up to an escaping exception *)

Lemma main_loop_escape ds descs cm (m a : nat) logs logs' e :
  main_loop ds descs cm (seqZ (Z.of_nat a) (Z.of_nat m)) logs
    = (logs', Some e) ->
  exists i,
    Z.of_nat a <= i < Z.of_nat a + Z.of_nat m /\
    (trace_to_log ds descs cm i).2 = Some e /\
    logs' !! (i + 1) = Some (trace_to_log ds descs cm i).1 /\
    (forall j, Z.of_nat a <= j < i ->
       (trace_to_log ds descs cm j).2 = None /\
       logs' !! (j + 1) = Some (trace_to_log ds descs cm j).1) /\
    (forall j, j < Z.of_nat a + 1 \/ i + 1 < j -> logs' !! j = logs !! j).
Proof.
  revert a logs. induction m as [|m IH]; intros a logs; [done|].
  rewrite seqZ_cons by lia. cbn [main_loop].
  destruct (trace_to_log ds descs cm (Z.of_nat a)) as [written escaped]
    eqn:Hlog.
  replace (Z.succ (Z.of_nat a)) with (Z.of_nat (S a)) by lia.
  replace (Z.pred (Z.of_nat (S m))) with (Z.of_nat m) by lia.
  destruct escaped as [e0|].
  - intros [= <- <-]. exists (Z.of_nat a). rewrite Hlog. simpl.
    split; [lia|]. split; [done|]. split; [by rewrite lookup_insert_eq|].
    split; [intros j Hj; lia|].
    intros j Hj. apply lookup_insert_ne. lia.
  - intros Hrest. destruct (IH (S a) _ Hrest)
      as (i & Hi & Hesc & Hlogged & Hbefore & Hframe).
    exists i. split; [lia|]. split; [done|]. split; [done|]. split.
    + intros j Hj. destruct (decide (j = Z.of_nat a)) as [->|Hne].
      * rewrite Hlog. simpl. split; [done|].
        rewrite Hframe by lia. by rewrite lookup_insert_eq.
      * apply Hbefore. lia.
    + intros j Hj. rewrite Hframe by lia. apply lookup_insert_ne. lia.
Qed.

(** X16: when [main] ends on an exception, it is the exception that
    escaped from one game [i]: the logs of the games before [i] are
    complete (none of their exceptions escaped), the log of game [i] holds
    what was written before the exception, and the logs of the games after
    [i], like every other file, are as they were before the run. *)
Theorem main_stops_at_the_first_escape ds descs cm logs logs' e :
  main ds descs cm logs = (logs', Some e) ->
  exists i,
    0 <= i < Z.of_nat (length (ds_actions ds)) /\
    (trace_to_log ds descs cm i).2 = Some e /\
    logs' !! (i + 1) = Some (trace_to_log ds descs cm i).1 /\
    (forall j, 0 <= j < i ->
       (trace_to_log ds descs cm j).2 = None /\
       logs' !! (j + 1) = Some (trace_to_log ds descs cm j).1) /\
    (forall j, j < 1 \/ i + 1 < j -> logs' !! j = logs !! j).
Proof.
  unfold main, range. intros Hmain.
  destruct (main_loop_escape ds descs cm (length (ds_actions ds)) 0
              logs logs' e Hmain)
    as (i & Hi & Hesc & Hlogged & Hbefore & Hframe).
  exists i. split; [lia|]. split; [done|]. split; [done|]. split.
  - intros j Hj. apply Hbefore. lia.
  - intros j Hj. apply Hframe. lia.
Qed.

Lemma main_stops_at_the_first_escape_witness :
  exists i,
    0 <= i < Z.of_nat (length (ds_actions example_two_actors)) /\
    (trace_to_log example_two_actors example_descriptions
                  example_color_map i).2 = Some RuntimeError.
Proof.
  destruct (main_stops_at_the_first_escape example_two_actors
              example_descriptions example_color_map ∅
              {[1 := [HeaderLine 0]]} RuntimeError)
    as (i & Hi & Hesc & _).
  - vm_compute. reflexivity.
  - exists i. split; [exact Hi | exact Hesc].
Defined.

(** ** The JSON export *)

Lemma extract_entry_spec t game_idx j :
  extract_entry t game_idx = Ok j <->
  (exists v, t = Scalar v /\ j = JNum v) \/
  (exists rows entry,
     t = Rows rows /\ py_index rows game_idx = Some entry /\
     j = tolist entry).
Proof.
  destruct t as [v|rows]; simpl.
  - split.
    + intros [= <-]. left. by exists v.
    + intros [(v' & [= <-] & ->) | (rows & entry & ? & _)]; done.
  - destruct (py_index rows game_idx) as [entry|] eqn:Hentry.
    + assert (Hsame : match entry with
                      | Scalar v => Ok (JNum v)
                      | Rows _ => Ok (tolist entry)
                      end = Ok (tolist entry)) by (by destruct entry).
      rewrite Hsame. split.
      * intros [= <-]. right. by exists rows, entry.
      * intros [(v & ? & _) | (rows' & entry' & [= <-] & Hentry' & ->)];
          [done|].
        rewrite Hentry in Hentry'. by injection Hentry' as <-.
    + split; [done|].
      intros [(v & ? & _) | (rows' & entry' & [= <-] & Hentry' & _)];
        [done|].
      by rewrite Hentry in Hentry'.
Qed.

Lemma extract_entry_error t game_idx e :
  extract_entry t game_idx = Err e ->
  e = IndexError /\
  exists rows, t = Rows rows /\ py_index rows game_idx = None.
Proof.
  destruct t as [v|rows]; simpl; [done|].
  destruct (py_index rows game_idx) as [[v|rows']|] eqn:Hentry; try done.
  intros [= <-]. split; [done|]. by exists rows.
Qed.

Lemma extract_loop_error tensors game_idx data e :
  extract_loop tensors game_idx data = Err e ->
  e = IndexError /\
  exists name rows,
    (name, Rows rows) ∈ tensors /\ py_index rows game_idx = None.
Proof.
  revert data. induction tensors as [|[name t] rest IH]; intros data; simpl.
  - done.
  - destruct (extract_entry t game_idx) as [j|e0] eqn:Ht.
    + intros Hrest. destruct (IH _ Hrest) as (-> & name' & rows & Hin & Hnone).
      split; [done|]. exists name', rows. split; [by right|done].
    + intros [= <-]. destruct (extract_entry_error _ _ _ Ht)
        as (-> & rows & -> & Hnone).
      split; [done|]. exists name, rows. split; [by left|done].
Qed.

Lemma extract_loop_Ok tensors game_idx data :
  (forall name rows, (name, Rows rows) ∈ tensors ->
     is_Some (py_index rows game_idx)) ->
  exists data', extract_loop tensors game_idx data = Ok data'.
Proof.
  revert data. induction tensors as [|[name t] rest IH]; intros data Hall;
    simpl.
  - by eexists.
  - destruct (extract_entry t game_idx) as [j|e0] eqn:Ht.
    + apply IH. intros name' rows Hin. apply (Hall name' rows). by right.
    + destruct (extract_entry_error _ _ _ Ht) as (_ & rows & -> & Hnone).
      destruct (Hall name rows) as [entry Hentry]; [by left|].
      by rewrite Hnone in Hentry.
Qed.

(** X17: [extract_game_data] fails exactly when some tensor of one or
    more dimensions has no entry at the game index, and then with
    [IndexError]; 0-dimensional tensors never make it fail, whatever the
    index. *)
Theorem extract_game_data_fails_on_missing_entry tensors game_idx :
  (forall e, extract_game_data tensors game_idx = Err e -> e = IndexError) /\
  ((exists e, extract_game_data tensors game_idx = Err e) <->
   exists name rows,
     (name, Rows rows) ∈ tensors /\ py_index rows game_idx = None).
Proof.
  unfold extract_game_data. split.
  - intros e He. by destruct (extract_loop_error _ _ _ _ He).
  - split.
    + intros [e He]. by destruct (extract_loop_error _ _ _ _ He).
    + intros (name & rows & Hin & Hnone).
      destruct (extract_loop tensors game_idx ∅) as [data|e] eqn:Hrun;
        [|by eexists].
      exfalso. revert Hrun. generalize (∅ : gmap string json).
      induction tensors as [|[name' t] rest IH]; intros data0; simpl.
      * by apply elem_of_nil in Hin.
      * apply elem_of_cons in Hin as [[= <- <-] | Hin].
        { simpl. by rewrite Hnone. }
        destruct (extract_entry t game_idx); [|done]. by apply IH.
Qed.

Lemma extract_loop_lookup tensors game_idx data0 data :
  extract_loop tensors game_idx data0 = Ok data ->
  NoDup tensors.*1 ->
  forall name j,
    data !! name = Some j <->
    (exists t, (name, t) ∈ tensors /\ extract_entry t game_idx = Ok j) \/
    ((name ∉ tensors.*1) /\ data0 !! name = Some j).
Proof.
  revert data0. induction tensors as [|[name0 t0] rest IH]; intros data0;
    simpl.
  - intros [= <-] _ name j. split.
    + intros Hj. right. split; [apply not_elem_of_nil|done].
    + intros [(t & Hin & _) | [_ Hj]]; [by apply elem_of_nil in Hin|done].
  - destruct (extract_entry t0 game_idx) as [j0|] eqn:Ht0; [|done].
    intros Hrun Hnodup name j.
    apply NoDup_cons in Hnodup as [Hfresh Hnodup].
    rewrite (IH _ Hrun Hnodup name j). split.
    + intros [(t & Hin & Ht) | [Hout Hj]].
      * left. exists t. split; [by right|done].
      * destruct (decide (name0 = name)) as [->|Hne].
        { rewrite lookup_insert_eq in Hj. injection Hj as <-.
          left. exists t0. split; [by left|done]. }
        rewrite lookup_insert_ne in Hj by done.
        right. split; [|done]. rewrite not_elem_of_cons. by split.
    + intros [(t & Hin & Ht) | [Hout Hj]].
      * apply elem_of_cons in Hin as [[= -> ->] | Hin].
        { right. split; [done|]. rewrite lookup_insert_eq.
          rewrite Ht0 in Ht. by injection Ht as ->. }
        left. by exists t.
      * apply not_elem_of_cons in Hout as [Hne Hout].
        right. split; [done|]. by rewrite lookup_insert_ne.
Qed.

(** X18: when [extract_game_data] succeeds on a file whose tensor names
    are distinct, the dictionary it dumps has exactly the names of the
    file; under the name of a 0-dimensional tensor stands its number,
    whatever the game index, and under the name of any other tensor the
    nested list of its entry at the game index. *)
Theorem extract_game_data_holds_the_game tensors game_idx data :
  extract_game_data tensors game_idx = Ok data ->
  NoDup tensors.*1 ->
  forall name j,
    data !! name = Some j <->
    (exists v, (name, Scalar v) ∈ tensors /\ j = JNum v) \/
    (exists rows entry,
       (name, Rows rows) ∈ tensors /\ py_index rows game_idx = Some entry /\
       j = tolist entry).
Proof.
  intros Hrun Hnodup name j.
  rewrite (extract_loop_lookup _ _ _ _ Hrun Hnodup name j). split.
  - intros [(t & Hin & Ht) | [_ Hj]]; [|by rewrite lookup_empty in Hj].
    apply extract_entry_spec in Ht
      as [(v & -> & ->) | (rows & entry & -> & Hentry & ->)].
    + left. by exists v.
    + right. by exists rows, entry.
  - intros [(v & Hin & ->) | (rows & entry & Hin & Hentry & ->)]; left.
    + exists (Scalar v). split; [done|]. apply extract_entry_spec.
      left. by exists v.
    + exists (Rows rows). split; [done|]. apply extract_entry_spec.
      right. by exists rows, entry.
Qed.

Lemma extract_game_data_holds_the_game_witness :
  exists data,
    extract_game_data example_tensors 1 = Ok data /\
    data !! "num_players"%string = Some (JNum 2) /\
    data !! "actions"%string = Some (JArr [JArr [JNum 30; JNum 5]]).
Proof.
  destruct (extract_game_data example_tensors 1) as [data|] eqn:Hrun;
    [|by vm_compute in Hrun].
  exists data. split; [done|].
  assert (Hnodup : NoDup example_tensors.*1)
    by (apply (bool_decide_unpack _); vm_compute; reflexivity).
  pose proof (extract_game_data_holds_the_game example_tensors 1 data
                Hrun Hnodup) as Hdata.
  split; apply Hdata.
  - left. exists 2. split; [|done]. unfold example_tensors.
    rewrite !elem_of_cons. tauto.
  - right. eexists _, _. split; [by left|]. split; reflexivity.
Defined.

(** ** No hand above five cards *)

Lemma draw_new_card_at_most_five p deck ptr cm hs dp pp f hand' :
  (p < length hs)%nat ->
  (length hand' <= 4)%nat ->
  (forall hand, hand ∈ hs -> (length hand <= 5)%nat) ->
  at_most_five
    (draw_new_card p deck ptr cm (Store (<[p := hand']> hs) dp pp f)).1.
Proof.
  intros Hp Hlen Hhs.
  assert (Hpopped : at_most_five (Store (<[p := hand']> hs) dp pp f)).
  { intros hand Hin. simpl in Hin.
    apply elem_of_insert_inv in Hin as [-> | Hin]; [lia|by apply Hhs]. }
  rewrite draw_new_card_eq.
  destruct (ptr <? 50); [|done].
  destruct (py_index deck ptr) as [row|]; [|done].
  destruct (card_str row cm) as [new_card|]; [|done].
  simpl. rewrite list_lookup_insert_eq by done.
  intros hand Hin. simpl in Hin. rewrite list_insert_insert_eq in Hin.
  apply elem_of_insert_inv in Hin as [-> | Hin]; [|by apply Hhs].
  rewrite length_app. simpl. lia.
Qed.

Lemma handle_discard_at_most_five v p deck ptr cm s :
  at_most_five s -> at_most_five (handle_discard v p deck ptr cm s).1.
Proof.
  intros Hs. rewrite handle_discard_eq.
  destruct (hands s !! p) as [hand|] eqn:Hhand; [|done].
  destruct (Z.of_nat (length hand) <=? v); [done|].
  destruct (py_pop hand v) as [[c hand']|] eqn:Hpop; [|done].
  apply draw_new_card_at_most_five; [by eapply lookup_lt_Some| |done].
  apply py_pop_length in Hpop.
  pose proof (Hs hand (list_elem_of_lookup_2 _ _ _ Hhand)). lia.
Qed.

Lemma handle_play_at_most_five v p deck ptr cm s :
  at_most_five s -> at_most_five (handle_play v p deck ptr cm s).1.
Proof.
  intros Hs. rewrite handle_play_eq.
  destruct (hands s !! p) as [hand|] eqn:Hhand; [|done].
  destruct (Z.of_nat (length hand) <=? v - 5); [done|].
  destruct (py_pop hand (v - 5)) as [[c hand']|] eqn:Hpop; [|done].
  apply py_pop_length in Hpop.
  pose proof (Hs hand (list_elem_of_lookup_2 _ _ _ Hhand)) as Hlen.
  assert (Hpopped : forall hand0,
    hand0 ∈ <[p := hand']> (hands s) -> (length hand0 <= 5)%nat).
  { intros hand0 Hin.
    apply elem_of_insert_inv in Hin as [-> | Hin]; [lia|by apply Hs]. }
  simpl. destruct (card_split c) as [[color rank]|]; [|done].
  destruct (played_pile s !! color) as [height|]; [|done].
  apply draw_new_card_at_most_five; [by eapply lookup_lt_Some|lia|done].
Qed.

(** X19: no hand ever holds more than five cards: not after the deal,
    whatever the deck, and not in the state any number of steps of the
    replay leaves, whether they returned or raised. *)
Theorem no_hand_above_five game_idx actions deck k num_players descs cm
    file0 :
  at_most_five
    (replay game_idx actions deck k num_players descs cm file0).1.
Proof.
  unfold replay.
  destruct (initialize_game_state deck num_players cm)
    as [[[[hs dp] pp] ptr0]|] eqn:Hinit.
  2: { intros hand Hin. by apply elem_of_nil in Hin. }
  unfold bind at 1. simpl.
  apply (trace_loop_rel deck cm
           (fun s1 s2 => at_most_five s1 -> at_most_five s2)).
  - done.
  - intros s1 s2 s3 H12 H23 H1. by apply H23, H12.
  - done.
  - intros v p ptr1 s1. apply handle_discard_at_most_five.
  - intros v p ptr1 s1. apply handle_play_at_most_five.
  - intros hand Hin. simpl in Hin. revert Hinit.
    unfold initialize_game_state, range.
    destruct (deal_hands deck (seqZ 0 num_players) cm) as [hs0|] eqn:Hdeal;
      [|done].
    intros [= -> _ _ _].
    destruct (Z.le_gt_cases 0 num_players) as [Hn|Hn].
    + replace (seqZ 0 num_players)
        with (seqZ (Z.of_nat 0) (Z.of_nat (Z.to_nat num_players))) in Hdeal
        by (by rewrite Z2Nat.id).
      destruct (deal_hands_lengths _ _ _ _ _ _ Hdeal Hin) as (i & _ & ->).
      lia.
    + unfold seqZ in Hdeal.
      replace (Z.to_nat num_players) with 0%nat in Hdeal by lia.
      simpl in Hdeal. injection Hdeal as <-. by apply elem_of_nil in Hin.
Qed.

(** ** The exceptions of a replay *)

Lemma py_index_elem_of {A : Type} (l : list A) (i : Z) (x : A) :
  py_index l i = Some x -> x ∈ l.
Proof.
  unfold py_index. destruct (_ || _); [done|].
  apply list_elem_of_lookup_2.
Qed.

Lemma py_pop_popped {A : Type} (l l' : list A) (i : Z) (x : A) :
  py_pop l i = Some (x, l') -> x ∈ l.
Proof.
  unfold py_pop. destruct (_ || _); [done|].
  destruct (l !! _) as [y|] eqn:Hy; [|done].
  intros [= <- _]. by eapply list_elem_of_lookup_2.
Qed.

Section KnownColors.
Variable game_deck : list card_tuple.
Variable color_map : gmap Z string.
Hypothesis names_tokens : names_are_tokens color_map.
Hypothesis deck_known :
  forall c r, (c, r) ∈ game_deck -> is_Some (color_map !! c).

Lemma draw_new_card_data_error p ptr s s' e :
  draw_new_card p game_deck ptr color_map s = (s', Err e) -> data_error e.
Proof.
  rewrite draw_new_card_eq. destruct (ptr <? 50); [|done].
  destruct (py_index game_deck ptr) as [[c r]|] eqn:Hrow.
  2: { intros [= _ <-]. right. by left. }
  destruct (deck_known c r (py_index_elem_of _ _ _ Hrow)) as [name Hname].
  simpl. rewrite Hname.
  destruct (hands s !! p); [done|]. intros [= _ <-]. right. by left.
Qed.

Lemma handle_discard_data_error v p ptr s s' e :
  handle_discard v p game_deck ptr color_map s = (s', Err e) -> data_error e.
Proof.
  rewrite handle_discard_eq.
  destruct (hands s !! p) as [hand|].
  2: { intros [= _ <-]. right. by left. }
  destruct (Z.of_nat (length hand) <=? v).
  { intros [= _ <-]. left. by eexists. }
  destruct (py_pop hand v) as [[c hand']|].
  2: { intros [= _ <-]. right. by left. }
  apply draw_new_card_data_error.
Qed.

Lemma handle_play_data_error v p ptr s s' e :
  stacks_cover color_map s ->
  handle_play v p game_deck ptr color_map s = (s', Err e) -> data_error e.
Proof.
  intros [Hhands Hpile]. rewrite handle_play_eq.
  destruct (hands s !! p) as [hand|] eqn:Hhand.
  2: { intros [= _ <-]. right. by left. }
  destruct (Z.of_nat (length hand) <=? v - 5).
  { intros [= _ <-]. left. by eexists. }
  destruct (py_pop hand (v - 5)) as [[c hand']|] eqn:Hpop.
  2: { intros [= _ <-]. right. by left. }
  destruct (Hhands hand c) as [color Hname];
    [by eapply list_elem_of_lookup_2 | by eapply py_pop_popped |].
  destruct (Hpile color _ Hname) as [height Hheight].
  simpl. unfold card_split. rewrite (names_tokens color _ Hname), Hheight.
  apply draw_new_card_data_error.
Qed.

Lemma trace_step_data_error actions descs action_num ptr s s' e :
  stacks_cover color_map s ->
  trace_step actions game_deck descs color_map action_num ptr s
    = (s', Err e) ->
  data_error e.
Proof.
  intros Hcover.
  destruct (py_index actions action_num) as [action_vec|] eqn:Hvec.
  2: { unfold trace_step. unfold bind at 1, lift at 1. rewrite Hvec.
       intros [= _ <-]. right. by left. }
  rewrite (trace_step_vec _ _ _ _ _ _ _ _ Hvec).
  destruct (nonzero_ne_30 action_vec) as [|p [|q rest]]; [done|..].
  2: { intros [= _ <-]. right. by right. }
  destruct (action_vec !! p) as [v|].
  2: { intros [= _ <-]. right. by left. }
  destruct ((v <? 0) || (30 <? v)).
  { intros [= _ <-]. left. by eexists. }
  destruct (py_index descs v) as [action_text|].
  2: { intros [= _ <-]. right. by left. }
  set (s1 := Store (hands s) (discard_pile s) (played_pile s)
                   (file s ++ [StepLine action_num p action_text])).
  assert (Hs1 : stacks_cover color_map s1) by exact Hcover.
  unfold bind at 1.
  destruct ((0 <=? v) && (v <=? 4)).
  { destruct (handle_discard v p game_deck ptr color_map s1)
      as [s2 [ptr2|e2]] eqn:Hd; [done|].
    intros [= _ <-]. by eapply handle_discard_data_error. }
  destruct ((5 <=? v) && (v <=? 9)).
  { destruct (handle_play v p game_deck ptr color_map s1)
      as [s2 [ptr2|e2]] eqn:Hd; [done|].
    intros [= _ <-]. by eapply handle_play_data_error. }
  by destruct ((10 <=? v) && (v <=? 29)).
Qed.

Lemma trace_loop_data_error actions descs steps ptr s s' e :
  stacks_cover color_map s ->
  trace_loop actions game_deck descs color_map steps ptr s = (s', Err e) ->
  data_error e.
Proof.
  revert ptr s. induction steps as [|action_num rest IH]; intros ptr s Hcover;
    [done|].
  simpl. unfold bind.
  assert (Hnext : stacks_cover color_map
    (trace_step actions game_deck descs color_map action_num ptr s).1).
  { generalize Hcover.
    apply (trace_step_rel game_deck color_map
      (fun s1 s2 => stacks_cover color_map s1 -> stacks_cover color_map s2)).
    - done.
    - intros s1 s2 s3 H12 H23 H1. by apply H23, H12.
    - done.
    - intros v p ptr1 s1. apply handle_discard_stacks_cover.
    - intros v p ptr1 s1. apply handle_play_stacks_cover. }
  destruct (trace_step actions game_deck descs color_map action_num ptr s)
    as [s1 [ptr1|e1]] eqn:Hstep.
  - by apply IH.
  - intros [= _ <-].
    exact (trace_step_data_error _ _ _ _ _ _ _ Hcover Hstep).
Qed.
End KnownColors.

(** X20: when every color name of the table is a single word and every
    color of the deck has a name, a replay that raises, after any number
    of steps, raises on the recorded game itself: an [InvalidGameError],
    an index out of range, or the [item()] of several acting players,
    never the [ValueError] or [KeyError] of a card that cannot be read
    back or rendered (so it never fails in the deal). *)
Theorem replay_stops_only_on_game_data game_idx actions deck k num_players
    descs cm file0 s e :
  names_are_tokens cm ->
  (forall c r, (c, r) ∈ deck -> is_Some (cm !! c)) ->
  replay game_idx actions deck k num_players descs cm file0 = (s, Err e) ->
  data_error e.
Proof.
  intros Htokens Hknown.
  pose proof (replay_stacks_cover game_idx actions deck 0 num_players descs
                cm file0) as Hstart.
  unfold replay in *.
  destruct (initialize_deals_what_exists deck num_players cm Hknown)
    as (hs & Hinit & _).
  rewrite Hinit in *. unfold bind at 1. unfold bind at 1 in Hstart.
  simpl in *.
  apply (trace_loop_data_error deck cm Htokens Hknown).
  by eapply Hstart.
Qed.

Lemma replay_stops_only_on_game_data_witness :
  (replay 0 [[3; 30]] example_deck10 1 2 example_descriptions
          example_color_map []).2 = Err IndexError /\
  data_error IndexError.
Proof.
  split; [vm_compute; reflexivity|].
  apply (replay_stops_only_on_game_data 0 [[3; 30]] example_deck10 1 2
           example_descriptions example_color_map []
           (replay 0 [[3; 30]] example_deck10 1 2 example_descriptions
                   example_color_map []).1
           IndexError example_names_are_tokens).
  - intros c r Hin.
    assert (Hc : c = 0 \/ c = 1).
    { unfold example_deck10 in Hin.
      repeat (apply elem_of_cons in Hin as [[= -> ->]|Hin]; [lia|]).
      by apply elem_of_nil in Hin. }
    destruct Hc as [-> | ->]; by eexists.
  - vm_compute. reflexivity.
Defined.
